(** * Hyperion: the exponential-family model base and the PLDA S-Norm
      scoring script

    A shallow embedding of [hyperion/pdfs/core/exp_family.py] (class
    [ExpFamily]) and of [eval_plda] in
    [egs/sre21-av-a/v1.16k/steps_be/eval-be-plda-snorm-v1.py].
    Further on, [init_data] and [init_hard_prototype_mining] of
    [hyperion/bin/adv_finetune_xvector_from_wav.py] and [load_data] and
    [eval_pdda] of [hyperion/bin/keras-eval-pdda-1vs1.py].

    Floating-point numbers are modelled by exact rationals ([Qc]), so
    every equation below is one of exact arithmetic: it says nothing
    about rounding.  numpy arrays that the code may update in place live
    in a store of buffers and are handled through views (buffer, offset,
    shape), so that aliasing between an array, the result of the identity
    [compute_suff_stats] and the slices [x[i1:i2,:]] is the one numpy
    has. *)

From Stdlib Require Import ZArith QArith Qcanon Lia.
From stdpp Require Import gmap list strings sorting.

(** ** Scalars and vectors *)

Abbreviation vec := (list Qc).

Definition z2q (z : Z) : Qc := Q2Qc (inject_Z z).

(** [np.sum] of a 1-d array. *)
Definition np_sum (v : vec) : Qc := foldr Qcplus 0%Qc v.

(** Elementwise [u + v] of two 1-d arrays of the same length. *)
Definition vadd (u v : vec) : vec := zip_with Qcplus u v.

Definition zeros (d : nat) : vec := replicate d 0%Qc.

(** [np.sum(rows, axis=0)] of a 2-d array with [d] columns: the sum of
    its rows, the zero vector of length [d] when there is no row. *)
Definition np_sum_axis0 (d : nat) (rs : list vec) : vec :=
  foldr vadd (zeros d) rs.

(** One row of [u_x *= w[:, None]]: every entry times the row's weight. *)
Definition scale (w : Qc) (r : vec) : vec := map (fun a => (a * w)%Qc) r.

(** Inner product of two 1-d arrays of the same length. *)
Definition dot (u v : vec) : Qc := np_sum (zip_with Qcmult u v).

(** A float that may fail to be finite: numpy's true division by zero
    gives [inf] or [nan] (with a warning), never an exception. *)
Inductive pyfloat :=
| Finite (q : Qc)
| NonFinite.

Definition true_div (a b : Qc) : pyfloat :=
  if Qc_eq_dec b 0%Qc then NonFinite else Finite (a / b)%Qc.

(** ** Arrays, the store and the model object *)

Abbreviation loc := nat.

(** A 2-d numpy array object: a view of [shape0] rows, starting at row
    [offset] of the buffer [data], each of [shape1] entries. *)
Record ndarray := NDArray {
  data : loc;
  offset : nat;
  shape0 : nat;
  shape1 : nat
}.

(** The attributes of [self] that [ExpFamily] declares. *)
Record model := Model {
  eta : option vec;
  A : option Qc
}.

(** The calls of [Estep] and [Mstep], recorded in the order they are made. *)
Inductive event :=
| CallEstep (x : ndarray)
| CallMstep (N : Qc) (u_x : vec).

Record state := State {
  heap : gmap loc (list vec);
  self : model;
  calls : list event
}.

Definition set_heap (h : gmap loc (list vec)) (s : state) : state :=
  State h (self s) (calls s).

Definition set_self (m : model) (s : state) : state :=
  State (heap s) m (calls s).

Definition add_call (e : event) (s : state) : state :=
  State (heap s) (self s) (calls s ++ [e]).

Inductive exn :=
| ValueError
| TypeError
| UnboundLocalError
| NotImplementedError
| ZeroDivisionError
| LinAlgError.

(** ** The monad of stateful, fallible computations *)

Inductive outcome (T : Type) : Type :=
| Ok (v : T) (s : state)
| Raise (e : exn) (s : state).
Arguments Ok {T} v s.
Arguments Raise {T} e s.

Definition M (T : Type) : Type := state -> outcome T.

Definition ret {T} (v : T) : M T := fun s => Ok v s.

Definition raise {T} (e : exn) : M T := fun s => Raise e s.

Definition bind {T U} (c : M T) (k : T -> M U) : M U :=
  fun s => match c s with
           | Ok v s' => k v s'
           | Raise e s' => Raise e s'
           end.

#[global] Instance M_ret : MRet M := @ret.
#[global] Instance M_bind : MBind M := fun T U k c => bind c k.

Definition get_self : M model := fun s => Ok (self s) s.

Definition log_call (e : event) : M unit := fun s => Ok tt (add_call e s).

(** [for i in idxs: body], threading the local variables [l]. *)
Fixpoint for_each {I L} (body : I -> L -> M L) (idxs : list I) (l : L) : M L :=
  match idxs with
  | [] => ret l
  | i :: rest => l' ← body i l; for_each body rest l'
  end.

(** ** numpy operations on the store *)

Definition buffer (h : gmap loc (list vec)) (l : loc) : list vec :=
  default [] (h !! l).

Definition view_rows (h : gmap loc (list vec)) (x : ndarray) : list vec :=
  take (shape0 x) (drop (offset x) (buffer h (data x))).

Definition read (x : ndarray) : M (list vec) :=
  fun s => Ok (view_rows (heap s) x) s.

(** Overwrite the rows of the view [x] in its buffer. *)
Definition write (x : ndarray) (rs : list vec) : M unit :=
  fun s =>
    let b := buffer (heap s) (data x) in
    Ok tt (set_heap (<[data x :=
                        take (offset x) b ++ rs ++ drop (offset x + shape0 x) b]>
                       (heap s)) s).

(** [x[i1:i2, :]] for [0 <= i1] and [0 <= i2]: a view on the same buffer. *)
Definition slice_rows (x : ndarray) (i1 i2 : nat) : ndarray :=
  let a := i1 `min` shape0 x in
  let b := i2 `min` shape0 x in
  NDArray (data x) (offset x + a) (b - a) (shape1 x).

(** [w[i1:i2]] for [0 <= i1] and [0 <= i2]. *)
Definition slice_vec (w : vec) (i1 i2 : nat) : vec :=
  take (i2 - i1) (drop i1 w).

(** Broadcasting the column [w[:, None]] against an array of [n] rows
    that is updated in place: the lengths agree, or [w] has one entry. *)
Definition broadcast_col (n : nat) (w : vec) : option vec :=
  if decide (length w = n) then Some w
  else match w with
       | [w0] => Some (replicate n w0)
       | _ => None
       end.

(** [u_x *= w[:, None]]. *)
Definition imul_col (u_x : ndarray) (w : vec) : M unit :=
  match broadcast_col (shape0 u_x) w with
  | None => raise ValueError
  | Some ws => rs ← read u_x; write u_x (zip_with scale ws rs)
  end.

(** [np.sum(u_x, axis=0)]. *)
Definition sum_axis0 (u_x : ndarray) : M vec :=
  rs ← read u_x; ret (np_sum_axis0 (shape1 u_x) rs).

Fixpoint xrange_up (fuel : nat) (i stop step : Z) : list Z :=
  match fuel with
  | O => []
  | S f => if (i <? stop)%Z then i :: xrange_up f (i + step) stop step else []
  end.

Fixpoint xrange_down (fuel : nat) (i stop step : Z) : list Z :=
  match fuel with
  | O => []
  | S f => if (stop <? i)%Z then i :: xrange_down f (i + step) stop step else []
  end.

(** [xrange(start, stop, step)]; the fuel is never exhausted, since
    at most [|stop - start|] values lie in the range. *)
Definition xrange (start stop step : Z) : M (list Z) :=
  if (step =? 0)%Z then raise ValueError
  else if (0 <? step)%Z
       then ret (xrange_up (Z.to_nat (stop - start)) start stop step)
       else ret (xrange_down (Z.to_nat (start - stop)) start stop step).

(** [np.inner(u, eta)] of two 1-d arrays; [eta] may still be [None]. *)
Definition np_inner (u : vec) (eta : option vec) : M Qc :=
  match eta with
  | None => raise TypeError
  | Some e => if decide (length u = length e) then ret (dot u e)
              else raise ValueError
  end.

(** [np.inner(u_x, eta)] of a 2-d array and a 1-d array: one inner
    product per row. *)
Definition np_inner_rows (u_x : ndarray) (eta : option vec) : M vec :=
  match eta with
  | None => raise TypeError
  | Some e => if decide (shape1 u_x = length e)
              then rs ← read u_x; ret (map (fun r => dot r e) rs)
              else raise ValueError
  end.

(** Reading an attribute that may hold [None] where a number is needed. *)
Definition number (a : option Qc) : M Qc :=
  match a with
  | Some q => ret q
  | None => raise TypeError
  end.

(** ** ExpFamily *)

Module ExpFamily.

(** [logh]: the base class returns the scalar 0. *)
Definition logh (x : ndarray) : M Qc := ret 0%Qc.

(** [accum_logh]: [np.sum] of the scalar, or of the weights times it. *)
Definition accum_logh (x : ndarray) (sample_weights : option vec) : M Qc :=
  match sample_weights with
  | None => l ← logh x; ret l
  | Some w => l ← logh x; ret (np_sum (map (fun wi => (wi * l)%Qc) w))
  end.

(** [compute_suff_stats]: the base class returns [x] itself, the same
    array object. *)
Definition compute_suff_stats (x : ndarray) : M ndarray := ret x.

Definition _accum_suff_stats_1batch
    (x : ndarray) (u_x : option ndarray) (sample_weights : option vec)
  : M (Qc * vec) :=
  u_x ← match u_x with
         | None => compute_suff_stats x
         | Some u => ret u
         end;
  N ← match sample_weights with
       | None => ret (z2q (Z.of_nat (shape0 u_x)))
       | Some w => imul_col u_x w ;; ret (np_sum w)
       end;
  acc_u_x ← sum_axis0 u_x;
  ret (N, acc_u_x).

(** The local variables of [_accum_suff_stats_nbatches]; [None] is an
    unbound name. *)
Record locals := Locals {
  sw_i : option vec;
  N : option Qc;
  u_x : option vec
}.

Definition nbatches_body
    (x : ndarray) (sample_weights : option vec) (batch_size : Z)
    (i1 : Z) (l : locals) : M locals :=
  let i2 := Z.min (i1 + batch_size) (Z.of_nat (shape0 x)) in
  let x_i := slice_rows x (Z.to_nat i1) (Z.to_nat i2) in
  let sw_i' := match sample_weights with
               | Some w => Some (slice_vec w (Z.to_nat i1) (Z.to_nat i2))
               | None => sw_i l
               end in
  '(N_i, u_x_i) ← _accum_suff_stats_1batch x_i None sw_i';
  if (i1 =? 0)%Z then ret (Locals sw_i' (Some N_i) (Some u_x_i))
  else match N l, u_x l with
       | Some n, Some u => ret (Locals sw_i' (Some (n + N_i)%Qc) (Some (vadd u u_x_i)))
       | _, _ => raise UnboundLocalError
       end.

Definition _accum_suff_stats_nbatches
    (x : ndarray) (sample_weights : option vec) (batch_size : Z)
  : M (Qc * vec) :=
  idxs ← xrange 0 (Z.of_nat (shape0 x)) batch_size;
  l ← for_each (nbatches_body x sample_weights batch_size) idxs
                (Locals None None None);
  match N l, u_x l with
  | Some n, Some u => ret (n, u)
  | _, _ => raise UnboundLocalError
  end.

Definition accum_suff_stats
    (x : ndarray) (u_x : option ndarray) (sample_weights : option vec)
    (batch_size : option Z) : M (Qc * vec) :=
  match u_x, batch_size with
  | None, Some b => _accum_suff_stats_nbatches x sample_weights b
  | _, _ => _accum_suff_stats_1batch x u_x sample_weights
  end.

Definition Estep
    (x : ndarray) (u_x : option ndarray) (sample_weights : option vec)
    (batch_size : option Z) : M (Qc * vec) :=
  log_call (CallEstep x) ;;
  accum_suff_stats x u_x sample_weights batch_size.

Definition __init__ (eta : option vec) : model := Model eta None.

Section Subclass.

(** What the base class leaves to its subclasses: [Mstep], abstract,
    which updates the attributes of [self] from the statistics or raises,
    and [eval_llk_std], which the class calls and does not define. *)
Variable Mstep : Qc -> vec -> model -> exn + model.
Variable eval_llk_std : ndarray -> M vec.

Definition call_Mstep (N : Qc) (u_x : vec) : M unit :=
  fun s =>
    let s' := add_call (CallMstep N u_x) s in
    match Mstep N u_x (self s') with
    | inl e => Raise e s'
    | inr m => Ok tt (set_self m s')
    end.

Definition elbo
    (x : ndarray) (u_x : option vec) (N : Qc) (logh : option Qc)
    (sample_weights : option vec) (batch_size : option Z) : M Qc :=
  '(N, u_x) ← match u_x with
              | None => accum_suff_stats x None sample_weights batch_size
              | Some u => ret (N, u)
              end;
  logh ← match logh with
         | None => accum_logh x sample_weights
         | Some l => ret l
         end;
  m ← get_self;
  ip ← np_inner u_x (eta m);
  a ← number (A m);
  ret (logh + ip - N * a)%Qc.

Definition fit
    (x : ndarray) (sample_weights : option vec)
    (x_val : option ndarray) (sample_weights_val : option vec)
    (batch_size : option Z) : M (list pyfloat) :=
  '(N, u_x) ← Estep x None sample_weights batch_size;
  call_Mstep N u_x ;;
  elbo_x ← elbo x (Some u_x) N None None None;
  let elbo_l := [Finite elbo_x; true_div elbo_x N] in
  match x_val with
  | Some x_val =>
      '(N, u_x) ← Estep x_val None sample_weights_val batch_size;
      elbo_val ← elbo x_val (Some u_x) N None None None;
      ret (elbo_l ++ [Finite elbo_val; true_div elbo_val N])
  | None => ret elbo_l
  end.

Definition eval_llk_nat (x : ndarray) (u_x : option ndarray) : M vec :=
  u_x ← match u_x with
        | None => compute_suff_stats x
        | Some u => ret u
        end;
  l ← logh x;
  m ← get_self;
  ip ← np_inner_rows u_x (eta m);
  a ← number (A m);
  ret (map (fun d => (l + d - a)%Qc) ip).

Definition eval_llk (x : ndarray) (u_x : option ndarray) (mode : string)
  : M vec :=
  if decide (mode = "nat") then eval_llk_nat x u_x
  else eval_llk_std x.

End Subclass.

(** The static conversions between parameterizations: the base class
    raises, whatever it is given and whatever a subclass would return. *)
Definition compute_A_nat {P R : Type} (eta : P) : exn + R :=
  inl NotImplementedError.

Definition compute_A_std {P R : Type} (params : P) : exn + R :=
  inl NotImplementedError.

Definition compute_eta {P R : Type} (param : P) : exn + R :=
  inl NotImplementedError.

Definition compute_std {P R : Type} (eta : P) : exn + R :=
  inl NotImplementedError.

End ExpFamily.

(** ** The scoring script [eval-be-plda-snorm-v1.py] *)

Module EvalPLDA.

(** The order numpy sorts strings by. *)
Definition string_le (a b : string) : Prop := String.leb a b = true.

#[global] Instance string_le_dec : RelDecision string_le :=
  fun a b => decide (String.leb a b = true).

(** Index of the first [k] in [u], [length u] when there is none. *)
Fixpoint position (k : string) (u : list string) : nat :=
  match u with
  | [] => 0
  | k' :: u' => if decide (k = k') then 0 else S (position k u')
  end.

(** [np.unique(l, return_inverse=True)]: the sorted distinct values of
    [l], and for each entry of [l] its index among them. *)
Definition np_unique_inverse (l : list string) : list string * list nat :=
  let u := merge_sort string_le (remove_dups l) in
  (u, map (fun k => position k u) l).

(** The elapsed time per trial that the script logs: a Python float
    divided by the integer number of trials. *)
Definition time_per_trial (num_trials : nat) : exn + unit :=
  if decide (num_trials = 0) then inl ZeroDivisionError else inr tt.

Section Collaborators.

(** Embedding and score matrices, the trial index, the PLDA model and
    the preprocessing transform belong to modules the script imports. *)
Variables matrix trial_ndx plda transform : Type.
Variable nrows : matrix -> nat.
Variable seg_set : trial_ndx -> list string.
Variable TransformList_load : string -> transform.
Variable TDR_read :
  string -> option string -> string -> option string -> option transform ->
  matrix * matrix * list string * trial_ndx.
Variable VR_read : string -> string -> option transform -> matrix.
Variable load_plda : string -> string -> plda.
Variable llr_Nvs1 : plda -> matrix -> matrix -> string -> list nat -> matrix.
Variable llr_1vs1 : plda -> matrix -> matrix -> matrix.

Record SNorm := AdaptSNorm { nbest : Z; nbest_discard : Z }.

Variable predict : SNorm -> matrix -> matrix -> matrix -> matrix.

Record TrialScores := MkTrialScores {
  model_set : list string;
  segment_set : list string;
  scores : matrix
}.

(** [eval_plda]: the files it saves, as (path, content) in the order
    they are written, or the exception it stops with. *)
Definition eval_plda
    (v_file : string) (ndx_file : option string) (enroll_file : string)
    (test_file : option string) (preproc_file : option string)
    (coh_v_file coh_list : string) (coh_nbest coh_nbest_discard : Z)
    (model_file score_file plda_type pool_method : string)
  : exn + list (string * TrialScores) :=
  let preproc := match preproc_file with
                 | Some f => Some (TransformList_load f)
                 | None => None
                 end in
  let '(x_e, x_t, enroll, ndx) :=
    TDR_read v_file ndx_file enroll_file test_file preproc in
  let '(enroll, ids_e) := np_unique_inverse enroll in
  let model := load_plda plda_type model_file in
  let scores := llr_Nvs1 model x_e x_t pool_method ids_e in
  let num_trials := length enroll * nrows x_t in
  match time_per_trial num_trials with
  | inl e => inl e
  | inr _ =>
      let x_coh := VR_read coh_v_file coh_list preproc in
      let scores_coh_test := llr_1vs1 model x_coh x_t in
      let scores_enr_coh := llr_Nvs1 model x_e x_coh pool_method ids_e in
      let snorm := AdaptSNorm coh_nbest coh_nbest_discard in
      let scores := predict snorm scores scores_coh_test scores_enr_coh in
      match time_per_trial num_trials with
      | inl e => inl e
      | inr _ =>
          let s := MkTrialScores enroll (seg_set ndx) scores in
          inr [(score_file, s)]
      end
  end.

End Collaborators.

End EvalPLDA.

(** ** The fine-tuning script [adv_finetune_xvector_from_wav.py] *)

Module AdvFinetune.

(** Python values found in the configuration dictionaries. *)
#[warnings="-register-all"]
Inductive pyval :=
| PyNone
| PyBool (b : bool)
| PyInt (z : Z)
| PyNum (q : Qc)
| PyStr (s : string)
| PyDict (d : gmap string pyval).

Inductive pyexn :=
| KeyError (k : string)
| TypeError
| ZeroDivisionError.

#[global] Instance pyexn_ret : MRet (sum pyexn) := fun _ v => inr v.
#[global] Instance pyexn_bind : MBind (sum pyexn) :=
  fun _ _ k c => match c with
                 | inl e => inl e
                 | inr v => k v
                 end.

(** Subscripting with a string, [**v] and [v[k] = ...] need a
    dictionary. *)
Definition as_dict (v : pyval) : pyexn + gmap string pyval :=
  match v with
  | PyDict d => inr d
  | _ => inl TypeError
  end.

(** A value used in arithmetic: an [int], a [bool] (0 or 1) or a
    [float]. *)
Definition as_number (v : pyval) : pyexn + Qc :=
  match v with
  | PyInt z => inr (z2q z)
  | PyBool b => inr (z2q (if b then 1 else 0))
  | PyNum q => inr q
  | _ => inl TypeError
  end.

(** [a / b], true division. *)
Definition true_divide (a b : Qc) : pyexn + Qc :=
  if decide (b = 0%Qc) then inl ZeroDivisionError else inr (a / b)%Qc.

(** [int(q)]: truncation toward zero, here of the exact quotient. *)
Definition py_int (q : Qc) : Z := Z.quot (Qnum q) (Zpos (Qden q)).

Section Collaborators.

(** The audio dataset, the segment sampler and the torch data loader
    belong to modules the script imports. *)
Variables dataset sampler : Type.
Variable AD_filter_args : gmap string pyval -> gmap string pyval.
Variable AD : gmap string pyval -> dataset.
Variable SegSamplerFactory_create : dataset -> gmap string pyval -> sampler.

(** [torch.utils.data.DataLoader(dataset, batch_sampler=sampler, **largs)]. *)
Record DataLoader := MkDataLoader {
  dl_dataset : dataset;
  batch_sampler : sampler;
  largs : gmap string pyval
}.

(** [d[k]] for a dictionary [d]. *)
Definition item (d : gmap string pyval) (k : string) : pyexn + pyval :=
  match d !! k with
  | Some x => inr x
  | None => inl (KeyError k)
  end.

(** What [init_data] reads before it writes: the dictionaries
    [kwargs["data"]] and [kwargs["data"][partition]], the filtered
    dataset arguments, and [sampler_args] as a dictionary. *)
Record init_data_reads := InitDataReads {
  data_d : gmap string pyval;
  part_d : gmap string pyval;
  ad_args : gmap string pyval;
  sampler_args : gmap string pyval
}.

Definition init_data_config (partition : string) (kwargs : gmap string pyval)
  : pyexn + init_data_reads :=
  data ← item kwargs "data";
  data_d ← as_dict data;
  part ← item data_d partition;
  part_d ← as_dict part;
  ds ← item part_d "dataset";
  ds_args ← as_dict ds;
  let ad_args := AD_filter_args ds_args in
  sampler_args ← item part_d "sampler";
  sampler_d ← as_dict sampler_args;
  mret (InitDataReads data_d part_d ad_args sampler_d).

(** The rest of [init_data]: the dataset, the sampler, the number of
    workers per GPU and the loader. *)
Definition init_data_loader
    (num_gpus : Z) (part_d ad_args sampler_args : gmap string pyval)
  : pyexn + DataLoader :=
  let dataset := AD ad_args in
  let sampler := SegSamplerFactory_create dataset sampler_args in
  dl ← item part_d "data_loader";
  dl_d ← as_dict dl;
  nw ← item dl_d "num_workers";
  num_workers ← as_number nw;
  q ← true_divide (num_workers + z2q num_gpus - 1)%Qc (z2q num_gpus);
  let num_workers_per_gpu := py_int q in
  let largs := if (0 <? num_gpus)%Z
               then <["num_workers" := PyInt num_workers_per_gpu]>
                      (<["pin_memory" := PyBool true]> ∅)
               else ∅ in
  mret (MkDataLoader dataset sampler largs).

(** [init_data]: the loader or the exception, and the caller's
    dictionary after the call: [sampler_args["shuffle"] = ...] writes
    into the dictionary [kwargs["data"][partition]["sampler"]] of the
    caller. *)
Definition init_data
    (partition : string) (rank : Z) (num_gpus : Z) (kwargs : gmap string pyval)
  : (pyexn + DataLoader) * gmap string pyval :=
  match init_data_config partition kwargs with
  | inl e => (inl e, kwargs)
  | inr r =>
      let is_val := bool_decide (partition = "val") in
      let ad_args := <["is_val" := PyBool is_val]> (ad_args r) in
      let sampler_args :=
        <["shuffle" := PyBool (negb is_val)]> (sampler_args r) in
      let part_d := <["sampler" := PyDict sampler_args]> (part_d r) in
      let kwargs' :=
        <["data" := PyDict (<[partition := PyDict part_d]> (data_d r))]>
          kwargs in
      (init_data_loader num_gpus part_d ad_args sampler_args, kwargs')
  end.

End Collaborators.

(** The calls [init_hard_prototype_mining] makes, in order. *)
Inductive mining_call (matrix : Type) :=
| ComputePrototypeAffinity
| SetHardPrototypesTrain (m : matrix)
| SetHardPrototypesVal (m : matrix).
Arguments ComputePrototypeAffinity {matrix}.
Arguments SetHardPrototypesTrain {matrix} m.
Arguments SetHardPrototypesVal {matrix} m.

(** [init_hard_prototype_mining]; [train_hpm] and [val_hpm] are the
    attribute [batch_sampler.hard_prototype_mining] of the two loaders,
    [None] when reading it raises, and [affinity] is what
    [model.compute_prototype_affinity()] returns. *)
Definition init_hard_prototype_mining {matrix : Type}
    (affinity : matrix) (train_hpm val_hpm : option bool)
  : list (mining_call matrix) :=
  let hard_prototype_mining := default false train_hpm in
  if negb hard_prototype_mining then []
  else
    let affinity_matrix := affinity in
    let calls := [ComputePrototypeAffinity;
                  SetHardPrototypesTrain affinity_matrix] in
    let hard_prototype_mining := default false val_hpm in
    if negb hard_prototype_mining then calls
    else calls ++ [SetHardPrototypesVal affinity_matrix].

End AdvFinetune.

(** ** The scoring script [keras-eval-pdda-1vs1.py] *)

Module EvalPDDA.

Section Collaborators.

Variables tensor scp_list trial_ndx transform reader vae : Type.
Variable shape0 : tensor -> nat.
Variable SCPList_load : string -> scp_list.
Variable TrialNdx_load : string -> trial_ndx.
Variable TrialNdx_parse_eval_set :
  option trial_ndx -> scp_list -> option scp_list -> string ->
  trial_ndx * scp_list.
Variable TrialNdx_split : Z -> Z -> Z -> Z -> trial_ndx.
Variable key : trial_ndx -> list string.
Variable model_set seg_set : trial_ndx -> list string.
Variable scp_filter : scp_list -> list string -> scp_list.
Variable file_path : scp_list -> list string.
Variable HypDataReader : string -> reader.
Variable read : reader -> list string -> tensor.
Variable TransformList_load : string -> transform.
Variable predict : transform -> tensor -> tensor.
Variable TVAEY_load TVAEYZ_load : string -> vae.
Variable build_qY : vae -> Z -> Z -> vae.
Variable build_qYqZ : vae -> Z -> Z -> Z -> vae.
Variable eval_llr_1vs1 : vae -> tensor -> tensor -> string -> Z -> tensor.


Record TrialScores := MkTrialScores {
  ts_model_set : list string;
  ts_seg_set : list string;
  ts_scores : tensor
}.


End Collaborators.

End EvalPDDA.

(** ** Vocabulary of the statements *)

(** The array [x] lies within its buffer. *)
Definition in_bounds (h : gmap loc (list vec)) (x : ndarray) : Prop :=
  offset x + shape0 x <= length (buffer h (data x)).

(** The weights fit the array: one per row. *)
Definition weights_fit (sw : option vec) (x : ndarray) : Prop :=
  match sw with
  | None => True
  | Some w => length w = shape0 x
  end.

(** The batch size is usable on [x]: absent, or at least 1 with at
    least one row to visit. *)
Definition batch_fits (batch_size : option Z) (x : ndarray) : Prop :=
  match batch_size with
  | None => True
  | Some b => (1 <= b)%Z /\ 0 < shape0 x
  end.

(** Rows [rs] with row [i] multiplied by the weight [w_i], when there
    are weights. *)
Definition weighted (sw : option vec) (rs : list vec) : list vec :=
  match sw with
  | None => rs
  | Some w => zip_with scale w rs
  end.

(** The effective sample count: the number of rows, or the sum of the
    weights. *)
Definition total_weight (sw : option vec) (n : nat) : Qc :=
  match sw with
  | None => z2q (Z.of_nat n)
  | Some w => np_sum w
  end.

(** The store after the rows of [x] were replaced by [rs]. *)
Definition with_rows (x : ndarray) (rs : list vec) (s : state) : state :=
  let b := buffer (heap s) (data x) in
  set_heap (<[data x := take (offset x) b ++ rs ++ drop (offset x + shape0 x) b]>
              (heap s)) s.

(** The state an accumulation over [x] leaves: untouched without
    weights, the rows of [x] weighted in place with them. *)
Definition after_accum (sw : option vec) (x : ndarray) (s : state) : state :=
  match sw with
  | None => s
  | Some w => with_rows x (zip_with scale w (view_rows (heap s) x)) s
  end.

Definition state_of {T} (o : outcome T) : state :=
  match o with
  | Ok _ s => s
  | Raise _ s => s
  end.

(** A computation that touches nothing but the store: it leaves the
    attributes of [self] and the record of calls as they were, whether
    it returns or raises. *)
Definition heap_only {T} (c : M T) : Prop :=
  forall s, self (state_of (c s)) = self s /\ calls (state_of (c s)) = calls s.

(** ** Sample inputs *)

Module Sample.

(** Buffer 0 holds a 3 x 2 array, buffer 1 a 1 x 2 array. *)
Definition store : gmap loc (list vec) :=
  <[1 := [[z2q 3; z2q 4]]]>
    (<[0 := [[z2q 1; z2q 2]; [z2q 3; z2q 4]; [z2q 5; z2q 6]]]> ∅).

Definition x3 : ndarray := NDArray 0 0 3 2.
Definition x1 : ndarray := NDArray 0 0 1 2.
Definition u1 : ndarray := NDArray 1 0 1 2.
Definition x_empty : ndarray := NDArray 0 0 0 2.

Definition start (m : model) : state := State store m [].

Definition fresh : model := ExpFamily.__init__ None.
Definition trained : model := Model (Some [z2q 1; z2q 1]) (Some (z2q 2)).

(** An M-step of a toy subclass: [eta] becomes the statistics, [A] the
    sample count. *)
Definition toy_Mstep (N : Qc) (u : vec) (m : model) : exn + model :=
  inr (Model (Some u) (Some N)).

Definition toy_eval_llk_std (x : ndarray) : M vec := ret [].

(** Collaborators of the scoring script, with matrices cut down to
    their number of rows. *)
Definition toy_TDR_read
    (v_file : string) (ndx_file : option string) (enroll_file : string)
    (test_file : option string) (preproc : option unit)
  : nat * nat * list string * list string :=
  (3, 2, ["spk2"; "spk1"; "spk2"], ["seg1"; "seg2"])%string.

End Sample.

(** ** Sample inputs for the scripts *)

Module SampleScripts.

Import AdvFinetune.

Definition sampler_cfg : gmap string pyval :=
  <["shuffle" := PyBool false]> (<["batch_size" := PyInt 32]> ∅).

Definition dataset_cfg : gmap string pyval :=
  <["audio_path" := PyStr "wav"]> ∅.

Definition loader_cfg : gmap string pyval :=
  <["num_workers" := PyInt 5]> ∅.

Definition train_cfg : gmap string pyval :=
  <["dataset" := PyDict dataset_cfg]>
    (<["sampler" := PyDict sampler_cfg]>
       (<["data_loader" := PyDict loader_cfg]> ∅)).

Definition data_cfg : gmap string pyval :=
  <["train" := PyDict train_cfg]> ∅.

Definition kwargs : gmap string pyval :=
  <["data" := PyDict data_cfg]> (<["seed" := PyInt 1123581321]> ∅).



End SampleScripts.

(** * Proofs *)

Import ExpFamily.

Ltac unfold_monad :=
  unfold mbind, mret, M_bind, M_ret, bind, ret, raise in *.

(** ** Exact arithmetic on vectors *)

Lemma z2q_add (a b : Z) : z2q (a + b) = (z2q a + z2q b)%Qc.
Proof.
  apply Qc_is_canon. unfold z2q, Qcplus, Q2Qc, this.
  rewrite !Qred_correct, inject_Z_plus. reflexivity.
Qed.

Lemma np_sum_app (a b : vec) : np_sum (a ++ b) = (np_sum a + np_sum b)%Qc.
Proof.
  induction a as [|q a IH]; simpl.
  - now rewrite Qcplus_0_l.
  - rewrite IH. apply Qcplus_assoc.
Qed.

Lemma vadd_assoc (u v w : vec) : vadd u (vadd v w) = vadd (vadd u v) w.
Proof.
  revert v w. induction u as [|a u IH]; intros [|b v] [|c w]; simpl; try done.
  unfold vadd in *. simpl. rewrite IH. f_equal. apply Qcplus_assoc.
Qed.

Lemma vadd_zeros_l (d : nat) (v : vec) : length v <= d -> vadd (zeros d) v = v.
Proof.
  revert d. induction v as [|a v IH]; intros d Hd.
  - unfold vadd. apply zip_with_nil_r.
  - destruct d as [|d]; simpl in Hd; [lia|].
    unfold vadd, zeros in *. simpl. rewrite Qcplus_0_l. f_equal.
    apply IH. lia.
Qed.

Lemma length_vadd (u v : vec) : length (vadd u v) = length u `min` length v.
Proof. apply length_zip_with. Qed.

Lemma length_np_sum_axis0_le (d : nat) (rs : list vec) :
  length (np_sum_axis0 d rs) <= d.
Proof.
  induction rs as [|r rs IH]; simpl.
  - unfold zeros. now rewrite length_replicate.
  - rewrite length_vadd. lia.
Qed.

Lemma np_sum_axis0_app (d : nat) (a b : list vec) :
  np_sum_axis0 d (a ++ b) = vadd (np_sum_axis0 d a) (np_sum_axis0 d b).
Proof.
  induction a as [|r a IH]; simpl.
  - symmetry. apply vadd_zeros_l, length_np_sum_axis0_le.
  - rewrite IH. apply vadd_assoc.
Qed.

(** ** Reading and writing views *)

Lemma buffer_insert (h : gmap loc (list vec)) (l : loc) (b : list vec) :
  buffer (<[l := b]> h) l = b.
Proof. unfold buffer. now rewrite lookup_insert_eq. Qed.

Lemma view_rows_split (h : gmap loc (list vec)) (x : ndarray) (P R Q : list vec) :
  buffer h (data x) = P ++ R ++ Q -> length P = offset x ->
  length R = shape0 x -> view_rows h x = R.
Proof.
  intros Hb HP HR. unfold view_rows.
  rewrite Hb, drop_app_length' by done. now rewrite take_app_length'.
Qed.

Lemma length_view_rows (h : gmap loc (list vec)) (x : ndarray) :
  in_bounds h x -> length (view_rows h x) = shape0 x.
Proof.
  unfold in_bounds, view_rows. intros H.
  rewrite length_take, length_drop. lia.
Qed.

Lemma view_rows_with_rows (x : ndarray) (rs : list vec) (s : state) :
  in_bounds (heap s) x -> length rs = shape0 x ->
  view_rows (heap (with_rows x rs s)) x = rs.
Proof.
  intros Hb Hl. unfold with_rows. simpl.
  eapply view_rows_split; [apply buffer_insert| |done].
  unfold in_bounds in Hb. rewrite length_take. lia.
Qed.

Lemma length_weighted (sw : option vec) (rs : list vec) :
  match sw with Some w => length w = length rs | None => True end ->
  length (weighted sw rs) = length rs.
Proof.
  destruct sw as [w|]; simpl; [|done].
  intros H. rewrite length_zip_with. lia.
Qed.

Lemma accum_1batch_spec (x : ndarray) (sw : option vec) (s : state) :
  in_bounds (heap s) x -> weights_fit sw x ->
  _accum_suff_stats_1batch x None sw s =
    Ok (total_weight sw (shape0 x),
        np_sum_axis0 (shape1 x) (weighted sw (view_rows (heap s) x)))
       (after_accum sw x s).
Proof.
  intros Hb Hw. destruct sw as [w|]; simpl in *.
  - unfold _accum_suff_stats_1batch, compute_suff_stats, imul_col, broadcast_col.
    unfold_monad. rewrite decide_True by done. unfold sum_axis0, read, write.
    unfold_monad. fold (with_rows x (zip_with scale w (view_rows (heap s) x)) s).
    rewrite view_rows_with_rows; [done|done|].
    rewrite length_zip_with, length_view_rows by done. lia.
  - reflexivity.
Qed.

Lemma in_bounds_slice (h : gmap loc (list vec)) (x : ndarray) (i j : nat) :
  in_bounds h x -> in_bounds h (slice_rows x i j).
Proof. unfold in_bounds, slice_rows. simpl. lia. Qed.

Lemma in_bounds_with_rows (x y : ndarray) (rs : list vec) (s : state) :
  in_bounds (heap s) x -> length rs = shape0 x -> data y = data x ->
  in_bounds (heap s) y -> in_bounds (heap (with_rows x rs s)) y.
Proof.
  unfold in_bounds, with_rows. simpl. intros Hx Hl Hd Hy.
  rewrite Hd in Hy |- *.
  rewrite buffer_insert, !length_app, length_take, length_drop. lia.
Qed.

Lemma in_bounds_after_accum (sw : option vec) (x y : ndarray) (s : state) :
  in_bounds (heap s) x -> weights_fit sw x -> data y = data x ->
  in_bounds (heap s) y -> in_bounds (heap (after_accum sw x s)) y.
Proof.
  intros Hx Hw Hd Hy. destruct sw as [w|]; simpl; [|done].
  apply in_bounds_with_rows; try done.
  simpl in Hw. rewrite length_zip_with, length_view_rows by done. lia.
Qed.

(** Splitting a view after its first [c] rows. *)
Lemma view_rows_slices (h : gmap loc (list vec)) (x : ndarray) (c : nat) :
  c <= shape0 x ->
  view_rows h x =
    view_rows h (slice_rows x 0 c) ++ view_rows h (slice_rows x c (shape0 x)).
Proof.
  intros Hc. unfold view_rows, slice_rows. cbn [data offset shape0 shape1].
  replace (offset x + 0 `min` shape0 x) with (offset x) by lia.
  replace (c `min` shape0 x - 0 `min` shape0 x) with c by lia.
  replace (shape0 x `min` shape0 x - c `min` shape0 x) with (shape0 x - c) by lia.
  replace (offset x + c `min` shape0 x) with (offset x + c) by lia.
  rewrite <- drop_drop, take_take_drop. f_equal. lia.
Qed.

Arguments with_rows : simpl never.
Arguments view_rows : simpl never.
Arguments slice_rows : simpl never.
Arguments buffer : simpl never.

Lemma total_weight_split (sw : option vec) (n c : nat) :
  c <= n -> match sw with Some w => length w = n | None => True end ->
  total_weight sw n =
    (total_weight (take c <$> sw) c + total_weight (drop c <$> sw) (n - c))%Qc.
Proof.
  intros Hc Hw. destruct sw as [w|]; simpl.
  - rewrite <- np_sum_app. now rewrite take_drop.
  - rewrite <- z2q_add. f_equal. lia.
Qed.

Lemma weighted_split (sw : option vec) (R1 R2 : list vec) :
  match sw with Some w => length R1 <= length w | None => True end ->
  weighted sw (R1 ++ R2) =
    weighted (take (length R1) <$> sw) R1 ++ weighted (drop (length R1) <$> sw) R2.
Proof.
  intros Hw. destruct sw as [w|]; simpl; [|done].
  rewrite <- (take_drop (length R1) w) at 1.
  apply zip_with_app. rewrite length_take. lia.
Qed.

(** Writing one view leaves the rows of a later view of the buffer alone. *)
Lemma view_rows_with_rows_after (x y : ndarray) (rs : list vec) (s : state) :
  in_bounds (heap s) x -> length rs = shape0 x -> data y = data x ->
  offset x + shape0 x <= offset y ->
  view_rows (heap (with_rows x rs s)) y = view_rows (heap s) y.
Proof.
  unfold in_bounds, view_rows, with_rows. cbn [heap set_heap].
  intros Hb Hl Hd Ho. rewrite Hd, buffer_insert. f_equal.
  rewrite app_assoc, drop_app_ge; rewrite length_app, length_take; [|lia].
  rewrite drop_drop. f_equal. lia.
Qed.

(** Writing the first [c] rows of a view and then the others is writing
    the view. *)
Lemma with_rows_slices (x : ndarray) (c : nat) (rs1 rs2 : list vec) (s : state) :
  in_bounds (heap s) x -> c <= shape0 x ->
  length rs1 = c -> length rs2 = shape0 x - c ->
  with_rows (slice_rows x c (shape0 x)) rs2 (with_rows (slice_rows x 0 c) rs1 s)
  = with_rows x (rs1 ++ rs2) s.
Proof.
  unfold in_bounds, with_rows, set_heap, slice_rows.
  cbn [heap self calls data offset shape0 shape1].
  intros Hb Hc H1 H2. rewrite buffer_insert, insert_insert_eq. f_equal. f_equal.
  replace (offset x + 0 `min` shape0 x) with (offset x) by lia.
  replace (c `min` shape0 x - 0 `min` shape0 x) with c by lia.
  replace (shape0 x `min` shape0 x - c `min` shape0 x) with (shape0 x - c) by lia.
  replace (offset x + c `min` shape0 x) with (offset x + c) by lia.
  set (b := buffer (heap s) (data x)) in *. clearbody b.
  rewrite (app_assoc (take (offset x) b) rs1).
  rewrite take_app_length', drop_app_ge;
    rewrite ?length_app, ?length_take. 2: lia. 2: lia.
  rewrite drop_drop, <- !app_assoc. do 4 f_equal. lia.
Qed.

Lemma accum_split (x : ndarray) (sw : option vec) (c : nat) (s : state) :
  in_bounds (heap s) x -> weights_fit sw x -> c <= shape0 x ->
  let x1 := slice_rows x 0 c in
  let x2 := slice_rows x c (shape0 x) in
  let s1 := after_accum (take c <$> sw) x1 s in
  total_weight sw (shape0 x) =
    (total_weight (take c <$> sw) c + total_weight (drop c <$> sw) (shape0 x - c))%Qc
  /\ np_sum_axis0 (shape1 x) (weighted sw (view_rows (heap s) x)) =
       vadd (np_sum_axis0 (shape1 x) (weighted (take c <$> sw) (view_rows (heap s) x1)))
            (np_sum_axis0 (shape1 x) (weighted (drop c <$> sw) (view_rows (heap s1) x2)))
  /\ after_accum sw x s = after_accum (drop c <$> sw) x2 s1.
Proof.
  intros Hb Hw Hc x1 x2 s1.
  assert (Hb1 : in_bounds (heap s) x1) by now apply in_bounds_slice.
  assert (Hl1 : length (view_rows (heap s) x1) = c).
  { rewrite length_view_rows by done. unfold x1, slice_rows. simpl. lia. }
  assert (Hl2 : length (view_rows (heap s) x2) = shape0 x - c).
  { rewrite length_view_rows by now apply in_bounds_slice.
    unfold x2, slice_rows. simpl. lia. }
  assert (E2 : view_rows (heap s1) x2 = view_rows (heap s) x2).
  { unfold s1. destruct sw as [w|]; [|done].
    cbn [after_accum fmap option_fmap option_map].
    apply view_rows_with_rows_after; try done.
    - rewrite length_zip_with, Hl1, length_take. simpl in Hw.
      unfold x1, slice_rows. simpl. lia.
    - unfold x1, x2, slice_rows. simpl. lia. }
  split; [|split].
  - apply total_weight_split; [done|]. now destruct sw.
  - rewrite E2, <- np_sum_axis0_app. f_equal.
    rewrite (view_rows_slices _ x c) by done. fold x1 x2.
    rewrite weighted_split, Hl1; [done|].
    destruct sw as [w|]; [|done]. simpl in Hw. lia.
  - destruct sw as [w|]; [|done]. simpl in Hw.
    cbn [after_accum fmap option_fmap option_map] in *. rewrite E2.
    subst s1 x1 x2. rewrite with_rows_slices; try done.
    + f_equal. rewrite (view_rows_slices _ x c) by done.
      rewrite <- (take_drop c w) at 1.
      apply zip_with_app. rewrite length_take. lia.
    + rewrite length_zip_with, length_take. lia.
    + rewrite length_zip_with, length_drop. lia.
Qed.

Lemma xrange_up_done (fuel : nat) (i stop step : Z) :
  (stop <= i)%Z -> xrange_up fuel i stop step = [].
Proof.
  intros H. destruct fuel as [|f]; simpl; [done|].
  destruct (Z.ltb_spec i stop); [lia|done].
Qed.

Lemma slice_rows_first (x : ndarray) (i j : nat) :
  i <= j -> j <= shape0 x ->
  slice_rows (slice_rows x i (shape0 x)) 0 (j - i) = slice_rows x i j.
Proof. intros. unfold slice_rows. simpl. f_equal; lia. Qed.

Lemma slice_rows_rest (x : ndarray) (i j : nat) :
  i <= j -> j <= shape0 x ->
  slice_rows (slice_rows x i (shape0 x)) (j - i)
             (shape0 (slice_rows x i (shape0 x)))
  = slice_rows x j (shape0 x).
Proof. intros. unfold slice_rows. simpl. f_equal; lia. Qed.

Lemma slice_rows_all (x : ndarray) : slice_rows x 0 (shape0 x) = x.
Proof. destruct x. unfold slice_rows. simpl. f_equal; lia. Qed.

Lemma nbatches_loop (x : ndarray) (sw : option vec) (b : nat) :
  1 <= b -> weights_fit sw x ->
  forall (fuel i : nat) (lc : locals) (s : state) (Nacc : Qc) (uacc : vec),
    0 < i < shape0 x -> shape0 x - i <= fuel -> in_bounds (heap s) x ->
    (sw = None -> sw_i lc = None) ->
    N lc = Some Nacc -> u_x lc = Some uacc ->
    exists swf,
      for_each (nbatches_body x sw (Z.of_nat b))
               (xrange_up fuel (Z.of_nat i) (Z.of_nat (shape0 x)) (Z.of_nat b))
               lc s
      = Ok (Locals swf
              (Some (Nacc + total_weight (drop i <$> sw) (shape0 x - i))%Qc)
              (Some (vadd uacc
                       (np_sum_axis0 (shape1 x)
                          (weighted (drop i <$> sw)
                             (view_rows (heap s) (slice_rows x i (shape0 x))))))))
           (after_accum (drop i <$> sw) (slice_rows x i (shape0 x)) s).
Proof.
  intros Hb Hw. induction fuel as [|fuel IH];
    intros i lc s Nacc uacc Hi Hf Hin Hsw HN Hu; [lia|].
  set (xr := slice_rows x i (shape0 x)).
  set (swr := drop i <$> sw).
  set (j := (i + b) `min` shape0 x).
  assert (Hinr : in_bounds (heap s) xr) by now apply in_bounds_slice.
  assert (Hwr : weights_fit swr xr).
  { unfold swr, xr. destruct sw as [w|]; [|done]. simpl in *.
    rewrite length_drop. lia. }
  assert (Hloc : match sw with
                 | Some w => Some (slice_vec w i j)
                 | None => sw_i lc
                 end = take (j - i) <$> swr).
  { unfold swr. destruct sw as [w|]; [done|]. now rewrite Hsw. }
  assert (Hxi : slice_rows x i j = slice_rows xr 0 (j - i)).
  { unfold xr. rewrite slice_rows_first; [done|lia..]. }
  assert (Hs0 : shape0 (slice_rows xr 0 (j - i)) = j - i).
  { unfold xr, slice_rows. simpl. lia. }
  destruct (accum_split xr swr (j - i) s) as (EN & Eu & Es); try done.
  { unfold xr, slice_rows. simpl. lia. }
  simpl. destruct (Z.ltb_spec (Z.of_nat i) (Z.of_nat (shape0 x))); [|lia].
  cbn [for_each]. unfold_monad. unfold nbatches_body at 1.
  rewrite <- Nat2Z.inj_add, <- Nat2Z.inj_min, !Nat2Z.id. fold j.
  rewrite Hloc, Hxi. unfold_monad.
  rewrite accum_1batch_spec; cycle 1.
  { now apply in_bounds_slice. }
  { destruct swr as [w|]; [|done]. simpl in *. rewrite Hs0, length_take. 
    unfold xr, slice_rows in Hwr. simpl in Hwr. lia. }
  destruct (Z.eqb_spec (Z.of_nat i) 0); [lia|]. rewrite HN, Hu.
  rewrite Hs0.
  assert (Hshape : shape1 (slice_rows xr 0 (j - i)) = shape1 x) by done.
  rewrite Hshape.
  destruct (decide (i + b < shape0 x)) as [Hlt|Hge].
  - assert (Hj : j = i + b) by (unfold j; lia).
    set (s1 := after_accum (take (j - i) <$> swr) (slice_rows xr 0 (j - i)) s) in *.
    set (N1 := (Nacc + total_weight (take (j - i) <$> swr) (j - i))%Qc).
    set (u1 := vadd uacc (np_sum_axis0 (shape1 x)
                 (weighted (take (j - i) <$> swr)
                    (view_rows (heap s) (slice_rows xr 0 (j - i)))))).
    assert (Hdrop : drop (j - i) <$> swr = drop (i + b) <$> sw).
    { unfold swr. destruct sw as [w|]; [|done]. simpl.
      f_equal. rewrite drop_drop. f_equal. lia. }
    assert (Hrest : slice_rows xr (j - i) (shape0 xr) = slice_rows x (i + b) (shape0 x)).
    { unfold xr. rewrite slice_rows_rest by lia. now rewrite Hj. }
    assert (Hsr : shape0 xr = shape0 x - i).
    { unfold xr, slice_rows. simpl. lia. }
    destruct (IH (i + b) (Locals (take (j - i) <$> swr) (Some N1) (Some u1))
                 s1 N1 u1) as [swf Hloop]; try done; try lia.
    { apply in_bounds_after_accum; try done.
      - now apply in_bounds_slice.
      - destruct swr as [w|]; [|done]. simpl in *. rewrite Hs0, length_take.
        unfold xr, slice_rows in Hwr. simpl in Hwr. lia. }
    { simpl. unfold swr. now intros ->. }
    rewrite Hloop. exists swf. unfold N1, u1.
    rewrite <- Qcplus_assoc, <- vadd_assoc.
    rewrite Hsr, Hdrop in EN. rewrite Hdrop, Hrest in Eu, Es.
    change (shape1 xr) with (shape1 x) in Eu.
    rewrite EN, Eu, Es.
    replace (shape0 x - i - (j - i)) with (shape0 x - (i + b)) by lia.
    done.
  - assert (Hj : j = shape0 x) by (unfold j; lia).
    rewrite Nat2Z.inj_add.
    rewrite xrange_up_done by lia. cbn [for_each]. unfold_monad.
    eexists. 
    assert (Hxr : slice_rows xr 0 (j - i) = xr).
    { rewrite <- Hxi, Hj. done. }
    assert (Hswr : take (j - i) <$> swr = swr).
    { destruct swr as [w|]; [|done]. simpl in *. f_equal. apply take_ge.
      unfold xr, slice_rows in Hwr. simpl in Hwr. lia. }
    rewrite Hxr, Hswr, Hj. done.
Qed.

(** On an array with at least one row, the batched accumulation with a
    batch size of at least 1 does what the one-pass accumulation does:
    same statistics, same final state. *)
Lemma nbatches_eq_1batch (x : ndarray) (sw : option vec) (b : Z) (s : state) :
  in_bounds (heap s) x -> weights_fit sw x -> 0 < shape0 x -> (1 <= b)%Z ->
  _accum_suff_stats_nbatches x sw b s = _accum_suff_stats_1batch x None sw s.
Proof.
  intros Hin Hw Hn Hb.
  rewrite <- (Z2Nat.id b) by lia.
  assert (Hbn : 1 <= Z.to_nat b) by lia.
  generalize dependent (Z.to_nat b). clear b Hb. intros b Hb.
  rewrite (accum_1batch_spec x sw s) by done.
  unfold _accum_suff_stats_nbatches, xrange. unfold_monad.
  destruct (Z.eqb_spec (Z.of_nat b) 0); [lia|].
  destruct (Z.ltb_spec 0 (Z.of_nat b)); [|lia].
  rewrite Z.sub_0_r, Nat2Z.id.
  destruct (shape0 x) as [|m] eqn:En; [lia|].
  cbn [xrange_up]. rewrite <- En in *.
  destruct (Z.ltb_spec 0 (Z.of_nat (shape0 x))); [|lia].
  cbn [for_each]. unfold_monad. unfold nbatches_body at 1.
  rewrite Z.add_0_l, <- Nat2Z.inj_min, !Nat2Z.id.
  change (Z.to_nat 0) with 0.
  set (j := b `min` shape0 x).
  assert (Hloc : match sw with
                 | Some w => Some (slice_vec w 0 j)
                 | None => None
                 end = take j <$> sw).
  { destruct sw as [w|]; [|done]. unfold slice_vec. simpl.
    now rewrite Nat.sub_0_r. }
  cbn [sw_i]. rewrite Hloc. unfold_monad.
  assert (Hs0 : shape0 (slice_rows x 0 j) = j).
  { unfold j, slice_rows. simpl. lia. }
  rewrite accum_1batch_spec; cycle 1.
  { now apply in_bounds_slice. }
  { destruct sw as [w|]; [|done]. simpl in *. rewrite Hs0, length_take. lia. }
  cbn [Z.eqb]. rewrite Hs0.
  change (shape1 (slice_rows x 0 j)) with (shape1 x).
  destruct (accum_split x sw j s) as (EN & Eu & Es); try done.
  { unfold j. lia. }
  destruct (decide (b < shape0 x)) as [Hlt|Hge].
  - assert (Hj : j = b) by (unfold j; lia).
    rewrite Hj in *.
    set (s1 := after_accum (take b <$> sw) (slice_rows x 0 b) s) in *.
    edestruct (nbatches_loop x sw b Hb Hw m b
                 (Locals (take b <$> sw)
                    (Some (total_weight (take b <$> sw) b))
                    (Some (np_sum_axis0 (shape1 x)
                       (weighted (take b <$> sw)
                          (view_rows (heap s) (slice_rows x 0 b))))))
                 s1) as [swf Hloop]; try done; try lia.
    { apply in_bounds_after_accum; try done.
      - now apply in_bounds_slice.
      - destruct sw as [w|]; [|done]. simpl in *. rewrite length_take. lia. }
    { now intros ->. }
    rewrite Hloop. cbn [N u_x]. now rewrite EN, Eu, Es.
  - assert (Hj : j = shape0 x) by (unfold j; lia).
    rewrite xrange_up_done by lia. cbn [for_each N u_x]. unfold_monad.
    rewrite Hj, slice_rows_all.
    assert (Hsw : take (shape0 x) <$> sw = sw).
    { destruct sw as [w|]; [|done]. simpl in *. f_equal. apply take_ge. lia. }
    now rewrite Hsw.
Qed.

(** ** What the accumulation leaves alone *)

Lemma heap_only_ret {T} (v : T) : heap_only (mret v).
Proof. now intros s. Qed.

Lemma heap_only_raise {T} (e : exn) : heap_only (@raise T e).
Proof. now intros s. Qed.

Lemma heap_only_bind {T U} (c : M T) (k : T -> M U) :
  heap_only c -> (forall v, heap_only (k v)) -> heap_only (c ≫= k).
Proof.
  intros Hc Hk s. unfold_monad. specialize (Hc s).
  destruct (c s) as [v s'|e s']; simpl in *; [|done].
  destruct Hc as [Hc1 Hc2]. destruct (Hk v s') as [H1 H2].
  split; congruence.
Qed.

Lemma heap_only_read (x : ndarray) : heap_only (read x).
Proof. now intros s. Qed.

Lemma heap_only_write (x : ndarray) (rs : list vec) : heap_only (write x rs).
Proof. now intros s. Qed.

Create HintDb frame.
#[local] Hint Resolve heap_only_ret heap_only_raise heap_only_read
  heap_only_write : frame.
#[local] Hint Extern 2 (heap_only (_ ≫= _)) =>
  apply heap_only_bind; [|intros ?] : frame.
#[local] Hint Extern 1 (heap_only (ret _)) => apply heap_only_ret : frame.
#[local] Hint Extern 3 (heap_only (match ?o with _ => _ end)) =>
  destruct o : frame.
#[local] Hint Extern 3 (heap_only (if ?b then _ else _)) =>
  destruct b : frame.

Lemma heap_only_imul_col (u : ndarray) (w : vec) : heap_only (imul_col u w).
Proof. unfold imul_col. auto with frame. Qed.

Lemma heap_only_sum_axis0 (u : ndarray) : heap_only (sum_axis0 u).
Proof. unfold sum_axis0. auto with frame. Qed.

#[local] Hint Resolve heap_only_imul_col heap_only_sum_axis0 : frame.

Lemma heap_only_1batch (x : ndarray) (u : option ndarray) (sw : option vec) :
  heap_only (_accum_suff_stats_1batch x u sw).
Proof.
  unfold _accum_suff_stats_1batch, compute_suff_stats. auto 10 with frame.
Qed.

#[local] Hint Resolve heap_only_1batch : frame.

Lemma heap_only_for_each {I L} (body : I -> L -> M L) (idxs : list I) (l : L) :
  (forall i l', heap_only (body i l')) -> heap_only (for_each body idxs l).
Proof.
  intros Hb. revert l. induction idxs as [|i idxs IH]; intros l; simpl.
  - apply heap_only_ret.
  - apply heap_only_bind; auto.
Qed.

Lemma heap_only_nbatches (x : ndarray) (sw : option vec) (b : Z) :
  heap_only (_accum_suff_stats_nbatches x sw b).
Proof.
  unfold _accum_suff_stats_nbatches. apply heap_only_bind.
  - unfold xrange. auto with frame.
  - intros idxs. apply heap_only_bind.
    + apply heap_only_for_each. intros i l. unfold nbatches_body.
      apply heap_only_bind; [auto with frame|].
      intros [N_i u_i]. auto 10 with frame.
    + intros l. auto with frame.
Qed.

Lemma heap_only_accum_suff_stats
    (x : ndarray) (u : option ndarray) (sw : option vec) (b : option Z) :
  heap_only (accum_suff_stats x u sw b).
Proof.
  unfold accum_suff_stats.
  destruct u, b; auto using heap_only_nbatches with frame.
Qed.

Lemma heap_only_accum_logh (x : ndarray) (sw : option vec) :
  heap_only (accum_logh x sw).
Proof. unfold accum_logh, logh. destruct sw; auto with frame. Qed.

Lemma heap_only_elbo (x : ndarray) (u : option vec) (N0 : Qc)
    (lh : option Qc) (sw : option vec) (b : option Z) :
  heap_only (elbo x u N0 lh sw b).
Proof.
  unfold elbo. apply heap_only_bind.
  - destruct u; auto using heap_only_accum_suff_stats with frame.
  - intros [N1 u1]. apply heap_only_bind.
    + destruct lh; auto using heap_only_accum_logh with frame.
    + intros l. apply heap_only_bind; [now intros s|].
      intros m. unfold np_inner, number. auto 10 with frame.
Qed.

(** [Estep] adds its own call to the record and nothing else. *)
Lemma Estep_frame (x : ndarray) (u : option ndarray) (sw : option vec)
    (b : option Z) (s : state) :
  self (state_of (Estep x u sw b s)) = self s /\
  calls (state_of (Estep x u sw b s)) = calls s ++ [CallEstep x].
Proof.
  unfold Estep, log_call. unfold_monad.
  apply (heap_only_accum_suff_stats x u sw b (add_call (CallEstep x) s)).
Qed.

(** ** The E-step *)

Lemma accum_suff_stats_spec
    (x : ndarray) (sw : option vec) (bs : option Z) (s : state) :
  in_bounds (heap s) x -> weights_fit sw x -> batch_fits bs x ->
  accum_suff_stats x None sw bs s =
    Ok (total_weight sw (shape0 x),
        np_sum_axis0 (shape1 x) (weighted sw (view_rows (heap s) x)))
       (after_accum sw x s).
Proof.
  intros Hin Hw Hb. unfold accum_suff_stats. destruct bs as [b|].
  - destruct Hb as [Hb Hn]. rewrite nbatches_eq_1batch by done.
    now apply accum_1batch_spec.
  - now apply accum_1batch_spec.
Qed.

Lemma Estep_spec
    (x : ndarray) (sw : option vec) (bs : option Z) (s : state) :
  in_bounds (heap s) x -> weights_fit sw x -> batch_fits bs x ->
  Estep x None sw bs s =
    Ok (total_weight sw (shape0 x),
        np_sum_axis0 (shape1 x) (weighted sw (view_rows (heap s) x)))
       (after_accum sw x (add_call (CallEstep x) s)).
Proof.
  intros Hin Hw Hb. unfold Estep, log_call. unfold_monad.
  now rewrite accum_suff_stats_spec.
Qed.

(** On an array with at least one row the batch size does not matter:
    any two batch sizes of at least 1, and no batch size at all, give
    the same statistics and leave the same state. *)
Lemma Estep_batch_size_irrelevant
    (x : ndarray) (sw : option vec) (b1 b2 : Z) (s : state) :
  in_bounds (heap s) x -> weights_fit sw x -> 0 < shape0 x ->
  (1 <= b1)%Z -> (1 <= b2)%Z ->
  Estep x None sw (Some b1) s = Estep x None sw None s /\
  Estep x None sw (Some b1) s = Estep x None sw (Some b2) s.
Proof.
  intros Hin Hw Hn H1 H2. now rewrite !Estep_spec.
Qed.

(** Without weights the accumulation writes nothing: the state it
    leaves is the one it found, whatever the batch size and whether it
    returns or raises. *)
Lemma unweighted_loop_keeps_state
    (x : ndarray) (b : Z) (idxs : list Z) (l : locals) (s : state) :
  sw_i l = None ->
  match for_each (nbatches_body x None b) idxs l s with
  | Ok l' s' => s' = s /\ sw_i l' = None
  | Raise _ s' => s' = s
  end.
Proof.
  revert l. induction idxs as [|i idxs IH]; intros l Hl; [done|].
  cbn [for_each]. unfold_monad. unfold nbatches_body at 1.
  rewrite Hl. unfold _accum_suff_stats_1batch, compute_suff_stats, sum_axis0, read.
  unfold_monad.
  destruct (i =? 0)%Z; [now apply IH|].
  destruct (N l), (u_x l); try done. now apply IH.
Qed.

Lemma unweighted_accum_keeps_state
    (x : ndarray) (u : option ndarray) (bs : option Z) (s : state) :
  state_of (accum_suff_stats x u None bs s) = s.
Proof.
  unfold accum_suff_stats. destruct u as [u|], bs as [b|]; try done.
  unfold _accum_suff_stats_nbatches, xrange. unfold_monad.
  destruct (b =? 0)%Z; [done|].
  destruct (0 <? b)%Z.
  - match goal with |- context [for_each ?f ?i ?l s] =>
      pose proof (unweighted_loop_keeps_state x b i l s eq_refl) as H;
      destruct (for_each f i l s) as [l' s'|e s'] end; [|done].
    destruct H as [-> _]. now destruct (N l'), (u_x l').
  - match goal with |- context [for_each ?f ?i ?l s] =>
      pose proof (unweighted_loop_keeps_state x b i l s eq_refl) as H;
      destruct (for_each f i l s) as [l' s'|e s'] end; [|done].
    destruct H as [-> _]. now destruct (N l'), (u_x l').
Qed.

(** C7: the E-step without weights returns the number of rows and the
    sum of the rows of [x] (the identity [compute_suff_stats] hands [x]
    itself over); with one weight per row it returns the sum of the
    weights and the sum of the rows, each multiplied by its weight. *)
Theorem Estep_sufficient_statistics (x : ndarray) (bs : option Z) (s : state) :
  in_bounds (heap s) x -> batch_fits bs x ->
  Estep x None None bs s =
    Ok (z2q (Z.of_nat (shape0 x)),
        np_sum_axis0 (shape1 x) (view_rows (heap s) x))
       (add_call (CallEstep x) s)
  /\ forall w, length w = shape0 x ->
       Estep x None (Some w) bs s =
         Ok (np_sum w,
             np_sum_axis0 (shape1 x)
               (zip_with scale w (view_rows (heap s) x)))
            (with_rows x (zip_with scale w (view_rows (heap s) x))
               (add_call (CallEstep x) s)).
Proof.
  intros Hin Hb. split.
  - now rewrite Estep_spec.
  - intros w Hw. now rewrite Estep_spec.
Qed.

(** C10: on an array without rows the one-pass E-step returns 0 and the
    zero vector, and the batched E-step, whose loop body never runs,
    stops on its unbound [N]. *)
Theorem Estep_empty_input (x : ndarray) (sw : option vec) (b : Z) (s : state) :
  shape0 x = 0 -> (1 <= b)%Z ->
  Estep x None None None s =
    Ok (0%Qc, zeros (shape1 x)) (add_call (CallEstep x) s)
  /\ Estep x None sw (Some b) s =
       Raise UnboundLocalError (add_call (CallEstep x) s).
Proof.
  intros Hn Hb. split.
  - unfold Estep, accum_suff_stats, _accum_suff_stats_1batch, log_call,
      compute_suff_stats, sum_axis0, read, view_rows.
    unfold_monad. now rewrite Hn.
  - unfold Estep, accum_suff_stats, _accum_suff_stats_nbatches, log_call, xrange.
    unfold_monad. rewrite Hn.
    destruct (Z.eqb_spec b 0); [lia|]. destruct (Z.ltb_spec 0 b); [|lia].
    reflexivity.
Qed.

(** C9: the four static conversions raise [NotImplementedError] on every
    input; none of them returns. *)
Theorem static_conversions_not_implemented (P R : Type) (p : P) :
  (@compute_A_nat P R p = inl NotImplementedError /\
   @compute_A_std P R p = inl NotImplementedError /\
   @compute_eta P R p = inl NotImplementedError /\
   @compute_std P R p = inl NotImplementedError) /\
  forall r : R,
    @compute_A_nat P R p <> inr r /\ @compute_A_std P R p <> inr r /\
    @compute_eta P R p <> inr r /\ @compute_std P R p <> inr r.
Proof. split; [done|]. intros r. repeat split; discriminate. Qed.

(** ** ELBO, fit and the per-sample log-likelihood *)

Lemma accum_logh_zero (x : ndarray) (sw : option vec) (s : state) :
  accum_logh x sw s = Ok 0%Qc s.
Proof.
  unfold accum_logh, logh. unfold_monad. destruct sw as [w|]; [|done].
  f_equal. induction w as [|q w IH]; simpl; [done|].
  now rewrite IH, Qcmult_0_r, Qcplus_0_l.
Qed.

Lemma elbo_precomputed
    (x : ndarray) (u : vec) (N0 : Qc) (lh : option Qc)
    (sw : option vec) (bs : option Z) (s : state) (e : vec) (a : Qc) :
  eta (self s) = Some e -> A (self s) = Some a -> length u = length e ->
  elbo x (Some u) N0 lh sw bs s = Ok (default 0%Qc lh + dot u e - N0 * a)%Qc s.
Proof.
  intros He Ha Hl. unfold elbo. unfold_monad.
  destruct lh as [l|]; [|rewrite accum_logh_zero];
    unfold get_self, np_inner, number; unfold_monad;
    rewrite He, Ha, decide_True by done; done.
Qed.

(** C5: without [u_x], [elbo] accumulates the statistics and the
    base-measure term itself and returns
    [accum_logh + <u_x, eta> - N * A]; with [u_x], [N] and [logh] handed
    in it returns [logh + <u_x, eta> - N * A] and touches nothing; and
    what [fit] puts in its result is what a call of [elbo] on the same
    [(N, u_x)] returns once the M-step is done. *)
Theorem elbo_formula
    (x : ndarray) (sw : option vec) (bs : option Z) (N0 : Qc) (s : state)
    (e : vec) (a : Qc) (N1 : Qc) (u1 : vec) (s1 : state) :
  eta (self s) = Some e -> A (self s) = Some a ->
  accum_suff_stats x None sw bs s = Ok (N1, u1) s1 ->
  length u1 = length e ->
  (exists L, accum_logh x sw s1 = Ok L s1 /\
             elbo x None N0 None sw bs s = Ok (L + dot u1 e - N1 * a)%Qc s1)
  /\ (forall (u : vec) (N : Qc) (lh : Qc), length u = length e ->
        elbo x (Some u) N (Some lh) sw bs s = Ok (lh + dot u e - N * a)%Qc s)
  /\ (forall (Mstep : Qc -> vec -> model -> exn + model) (swv : option vec)
             (N : Qc) (u : vec) (s2 : state) (m : model),
        Estep x None sw bs s = Ok (N, u) s2 ->
        Mstep N u (self s2) = inr m ->
        fit Mstep x sw None swv bs s =
          (v ← elbo x (Some u) N None None None; mret [Finite v; true_div v N])
            (set_self m (add_call (CallMstep N u) s2))).
Proof.
  intros He Ha Hacc Hl. split; [|split].
  - exists 0%Qc. split; [apply accum_logh_zero|].
    unfold elbo. unfold_monad. rewrite Hacc, accum_logh_zero.
    unfold get_self, np_inner, number. unfold_monad.
    destruct (heap_only_accum_suff_stats x None sw bs s) as [Hs _].
    rewrite Hacc in Hs. simpl in Hs. rewrite Hs, He, Ha.
    now rewrite decide_True.
  - intros u N lh Hu. now rewrite (elbo_precomputed _ _ _ _ _ _ _ e a).
  - intros Mstep swv N u s2 m HE HM. unfold fit, call_Mstep. unfold_monad.
    rewrite HE. cbn [self add_call]. rewrite HM.
    now destruct (elbo x (Some u) N None None None _).
Qed.

Section Subclass_facts.

Variable Mstep : Qc -> vec -> model -> exn + model.
Variable eval_llk_std : ndarray -> M vec.

(** C3: one call of [fit] runs the E-step on [x] once, then the M-step
    once, and returns [elbo, elbo/N] evaluated with the parameters the
    M-step left, on the statistics of [x]; with validation data it runs
    one more E-step, on [x_val], and appends [elbo_val, elbo_val/N_val].
    Nothing in it raises for want of convergence: it returns as soon as
    the E-step, the M-step and the inner product go through. *)
Theorem fit_one_iteration
    (x : ndarray) (sw swv : option vec) (bs : option Z) (s : state)
    (N : Qc) (u : vec) (s1 : state) (m : model) (e : vec) (a : Qc) :
  Estep x None sw bs s = Ok (N, u) s1 ->
  Mstep N u (self s1) = inr m ->
  eta m = Some e -> A m = Some a -> length u = length e ->
  let s2 := set_self m (add_call (CallMstep N u) s1) in
  let E := (0 + dot u e - N * a)%Qc in
  fit Mstep x sw None swv bs s = Ok [Finite E; true_div E N] s2
  /\ calls s2 = calls s ++ [CallEstep x; CallMstep N u]
  /\ forall (xv : ndarray) (Nv : Qc) (uv : vec) (s3 : state),
       Estep xv None swv bs s2 = Ok (Nv, uv) s3 -> length uv = length e ->
       let Ev := (0 + dot uv e - Nv * a)%Qc in
       fit Mstep x sw (Some xv) swv bs s =
         Ok [Finite E; true_div E N; Finite Ev; true_div Ev Nv] s3
       /\ calls s3 = calls s ++ [CallEstep x; CallMstep N u; CallEstep xv].
Proof.
  intros HE HM He Ha Hl s2 E.
  assert (Hc1 : calls s1 = calls s ++ [CallEstep x]).
  { pose proof (Estep_frame x None sw bs s) as [_ H]. now rewrite HE in H. }
  assert (Helbo : elbo x (Some u) N None None None s2 = Ok E s2).
  { now apply elbo_precomputed. }
  split; [|split].
  - unfold fit, call_Mstep. unfold_monad. rewrite HE. cbn [self add_call].
    rewrite HM. fold s2. now rewrite Helbo.
  - unfold s2. simpl. rewrite Hc1, <- app_assoc. done.
  - intros xv Nv uv s3 HEv Hlv Ev.
    pose proof (Estep_frame xv None swv bs s2) as [Hs3 Hc3].
    rewrite HEv in Hs3, Hc3. simpl in Hs3, Hc3. split.
    + unfold fit, call_Mstep. unfold_monad. rewrite HE. cbn [self add_call].
      rewrite HM. fold s2. rewrite Helbo, HEv.
      rewrite (elbo_precomputed _ _ _ _ _ _ _ e a); try done.
      * now rewrite Hs3.
      * now rewrite Hs3.
    + rewrite Hc3. unfold s2. simpl. rewrite Hc1, <- !app_assoc. done.
Qed.

(** C4: with validation data, whatever happens after the M-step (the
    training ELBO, the E-step on [x_val], the validation ELBO, returning
    or raising), the parameters of the model at the end of [fit] are the
    ones the M-step left; and the validation ELBO is evaluated with
    them. *)
Theorem fit_validation_keeps_parameters
    (x xv : ndarray) (sw swv : option vec) (bs : option Z) (s : state)
    (N : Qc) (u : vec) (s1 : state) (m : model) :
  Estep x None sw bs s = Ok (N, u) s1 ->
  Mstep N u (self s1) = inr m ->
  self (state_of (fit Mstep x sw (Some xv) swv bs s)) = m
  /\ forall (Nv : Qc) (uv : vec) (s3 : state) (e : vec) (a : Qc),
       eta m = Some e -> A m = Some a ->
       length u = length e -> length uv = length e ->
       Estep xv None swv bs (set_self m (add_call (CallMstep N u) s1))
         = Ok (Nv, uv) s3 ->
       exists E r, 
         fit Mstep x sw (Some xv) swv bs s =
           Ok ([Finite E; r; Finite (0 + dot uv e - Nv * a)%Qc;
                true_div (0 + dot uv e - Nv * a)%Qc Nv]) s3
         /\ self s3 = m.
Proof.
  intros HE HM. split.
  - unfold fit, call_Mstep. unfold_monad. rewrite HE. cbn [self add_call].
    rewrite HM.
    set (s2 := set_self m (add_call (CallMstep N u) s1)).
    assert (Hs2 : self s2 = m) by done.
    destruct (heap_only_elbo x (Some u) N None None None s2) as [H2 _].
    destruct (elbo x (Some u) N None None None s2) as [v s2'|ex s2'];
      simpl in H2; [|simpl; congruence].
    destruct (Estep_frame xv None swv bs s2') as [H3 _].
    destruct (Estep xv None swv bs s2') as [[Nv uv] s3|ex s3];
      simpl in H3; [|simpl; congruence].
    destruct (heap_only_elbo xv (Some uv) Nv None None None s3) as [H4 _].
    destruct (elbo xv (Some uv) Nv None None None s3) as [v' s4|ex s4];
      simpl in *; congruence.
  - intros Nv uv s3 e a He Ha Hl Hlv HEv.
    destruct (fit_one_iteration x sw swv bs s N u s1 m e a HE HM He Ha Hl)
      as (_ & _ & Hval).
    destruct (Hval xv Nv uv s3 HEv Hlv) as [Hfit _].
    do 2 eexists. split; [exact Hfit|].
    destruct (Estep_frame xv None swv bs
                (set_self m (add_call (CallMstep N u) s1))) as [H3 _].
    now rewrite HEv in H3.
Qed.

(** C6: with mode ['nat'], [eval_llk] returns for each row [r] of the
    statistics ([x] itself, or the array handed in as [u_x]) the value
    [logh + <r, eta> - A], the base class's [logh] being 0; with any
    other mode it is the subclass's [eval_llk_std] on [x]. *)
Theorem eval_llk_dispatch
    (x : ndarray) (u_x : option ndarray) (mode : string) (s : state)
    (e : vec) (a : Qc) :
  eta (self s) = Some e -> A (self s) = Some a ->
  shape1 (default x u_x) = length e ->
  eval_llk eval_llk_std x u_x "nat" s =
    Ok (map (fun r => (0 + dot r e - a)%Qc) (view_rows (heap s) (default x u_x))) s
  /\ (mode <> "nat"%string ->
      eval_llk eval_llk_std x u_x mode s = eval_llk_std x s).
Proof.
  intros He Ha Hd. split.
  - unfold eval_llk. rewrite decide_True by done.
    unfold eval_llk_nat, compute_suff_stats, logh, get_self, np_inner_rows,
      number, read.
    unfold_monad. destruct u_x as [u0|]; simpl in *;
      rewrite He, Ha, decide_True by done; rewrite map_map; done.
  - intros Hm. unfold eval_llk. now rewrite decide_False.
Qed.

End Subclass_facts.

(** ** The scoring script *)

#[local] Instance string_le_total : Total EvalPLDA.string_le.
Proof. intros a b. unfold EvalPLDA.string_le. apply String.leb_total. Qed.

Lemma position_lookup (k : string) (u : list string) :
  k ∈ u -> u !! EvalPLDA.position k u = Some k.
Proof.
  induction u as [|k' u IH]; intros Hk.
  - now apply elem_of_nil in Hk.
  - simpl. destruct (decide (k = k')) as [->|Hne]; [done|].
    apply elem_of_cons in Hk as [->|Hk]; [done|]. now apply IH.
Qed.

Lemma np_unique_elem_of (l : list string) (k : string) :
  k ∈ (EvalPLDA.np_unique_inverse l).1 <-> k ∈ l.
Proof.
  unfold EvalPLDA.np_unique_inverse. simpl.
  rewrite merge_sort_Permutation. apply elem_of_remove_dups.
Qed.

Lemma np_unique_NoDup (l : list string) :
  NoDup (EvalPLDA.np_unique_inverse l).1.
Proof.
  unfold EvalPLDA.np_unique_inverse. simpl.
  rewrite merge_sort_Permutation. apply NoDup_remove_dups.
Qed.

Lemma np_unique_Sorted (l : list string) :
  Sorted EvalPLDA.string_le (EvalPLDA.np_unique_inverse l).1.
Proof. unfold EvalPLDA.np_unique_inverse. simpl. apply Sorted_merge_sort, _. Qed.

Lemma np_unique_inverse_lookup (l : list string) (i : nat) (k : string) :
  l !! i = Some k ->
  exists j, (EvalPLDA.np_unique_inverse l).2 !! i = Some j /\
            (EvalPLDA.np_unique_inverse l).1 !! j = Some k.
Proof.
  intros Hi. eexists. split.
  - unfold EvalPLDA.np_unique_inverse. cbn [snd].
    rewrite list_lookup_fmap, Hi. done.
  - apply position_lookup. apply np_unique_elem_of.
    now apply list_elem_of_lookup_2 in Hi.
Qed.

Section Pipeline.

Variables matrix trial_ndx plda transform : Type.
Variable nrows : matrix -> nat.
Variable seg_set : trial_ndx -> list string.
Variable TransformList_load : string -> transform.
Variable TDR_read :
  string -> option string -> string -> option string -> option transform ->
  matrix * matrix * list string * trial_ndx.
Variable VR_read : string -> string -> option transform -> matrix.
Variable load_plda : string -> string -> plda.
Variable llr_Nvs1 : plda -> matrix -> matrix -> string -> list nat -> matrix.
Variable llr_1vs1 : plda -> matrix -> matrix -> matrix.
Variable predict : EvalPLDA.SNorm -> matrix -> matrix -> matrix -> matrix.


(** C8: the script replaces the enrollment identities by their distinct
    values and the index [ids_e] of each identity among them, scores
    enrollment against test and against the cohort with [llr_Nvs1] over
    these groups, the cohort against test with [llr_1vs1], and saves one
    file: the S-Norm of the three matrices, not the raw scores. *)
Theorem eval_plda_saves_normalized_scores
    (v_file : string) (ndx_file : option string) (enroll_file : string)
    (test_file preproc_file : option string) (coh_v_file coh_list : string)
    (coh_nbest coh_nbest_discard : Z)
    (model_file score_file plda_type pool_method : string)
    (x_e x_t : matrix) (enroll : list string) (ndx : trial_ndx) :
  let preproc := TransformList_load <$> preproc_file in
  let uniq := (EvalPLDA.np_unique_inverse enroll).1 in
  let ids_e := (EvalPLDA.np_unique_inverse enroll).2 in
  let model := load_plda plda_type model_file in
  let x_coh := VR_read coh_v_file coh_list preproc in
  let S := llr_Nvs1 model x_e x_t pool_method ids_e in
  let S_ct := llr_1vs1 model x_coh x_t in
  let S_ec := llr_Nvs1 model x_e x_coh pool_method ids_e in
  TDR_read v_file ndx_file enroll_file test_file preproc
    = (x_e, x_t, enroll, ndx) ->
  length uniq * nrows x_t <> 0 ->
  EvalPLDA.eval_plda matrix trial_ndx plda transform nrows seg_set
    TransformList_load TDR_read VR_read load_plda llr_Nvs1 llr_1vs1 predict
    v_file ndx_file enroll_file test_file preproc_file
    coh_v_file coh_list coh_nbest coh_nbest_discard
    model_file score_file plda_type pool_method
  = inr [(score_file,
          EvalPLDA.MkTrialScores matrix uniq (seg_set ndx)
            (predict (EvalPLDA.AdaptSNorm coh_nbest coh_nbest_discard)
                     S S_ct S_ec))]
  /\ NoDup uniq
  /\ (forall k, k ∈ uniq <-> k ∈ enroll)
  /\ (forall i k, enroll !! i = Some k ->
        exists j, ids_e !! i = Some j /\ uniq !! j = Some k).
Proof.
  intros preproc uniq ids_e model x_coh S S_ct S_ec Hread Hnz.
  split; [|split; [|split]].
  - unfold EvalPLDA.eval_plda.
    replace (match preproc_file with
             | Some f => Some (TransformList_load f)
             | None => None
             end) with preproc by now destruct preproc_file.
    rewrite Hread. subst uniq ids_e S S_ec.
    destruct (EvalPLDA.np_unique_inverse enroll) as [uq ids]. simpl in *.
    unfold EvalPLDA.time_per_trial. now rewrite decide_False.
  - apply np_unique_NoDup.
  - apply np_unique_elem_of.
  - apply np_unique_inverse_lookup.
Qed.

End Pipeline.

(** ** Further facts on the loop range, the column sums and [fit] *)

(** [xrange_up] with the fuel [xrange] gives it lists the whole range:
    the values [i + k * step] below [stop]. *)
Lemma xrange_up_spec (fuel : nat) (i stop step z : Z) :
  (1 <= step)%Z -> (stop - i <= Z.of_nat fuel)%Z ->
  z ∈ xrange_up fuel i stop step <->
  exists k : nat, z = (i + Z.of_nat k * step)%Z /\ (z < stop)%Z.
Proof.
  intros Hs. revert i. induction fuel as [|f IH]; intros i Hf.
  - simpl. split.
    + intros H. now apply elem_of_nil in H.
    + intros (k & -> & Hk). nia.
  - simpl. destruct (Z.ltb_spec i stop) as [Hlt|Hge].
    + rewrite elem_of_cons, IH by lia. split.
      * intros [->|(k & -> & Hk)].
        -- exists 0. lia.
        -- exists (S k). lia.
      * intros ([|k] & -> & Hk).
        -- left. lia.
        -- right. exists k. lia.
    + split.
      * intros H. now apply elem_of_nil in H.
      * intros (k & -> & Hk). nia.
Qed.

(** Entry [j] of [np.sum(rows, axis=0)] is the sum of column [j]. *)
Lemma np_sum_axis0_lookup (d : nat) (rs : list vec) (j : nat) :
  Forall (fun r => length r = d) rs -> j < d ->
  np_sum_axis0 d rs !! j = Some (np_sum (map (fun r => default 0%Qc (r !! j)) rs)).
Proof.
  intros Hrs Hj. induction Hrs as [|r rs Hr Hrs IH]; simpl.
  - unfold zeros. now rewrite lookup_replicate_2.
  - unfold vadd. rewrite lookup_zip_with, IH.
    destruct (r !! j) as [q|] eqn:Eq; [done|].
    apply lookup_ge_None in Eq. lia.
Qed.

(** With [u_x] handed in, [elbo] reads the model and writes nothing;
    it can only stop on a missing [eta] or [A] or on an [eta] of the
    wrong length. *)
Lemma elbo_precomputed_keeps_state
    (x : ndarray) (u : vec) (N0 : Qc) (lh : option Qc)
    (sw : option vec) (bs : option Z) (s : state) :
  state_of (elbo x (Some u) N0 lh sw bs s) = s.
Proof.
  unfold elbo. unfold_monad.
  destruct lh as [l|]; [|rewrite accum_logh_zero];
    unfold get_self, np_inner, number; unfold_monad;
    destruct (eta (self s)) as [e|]; try done;
    destruct (decide (length u = length e)); try done;
    now destruct (A (self s)).
Qed.

Lemma elbo_precomputed_raises
    (x : ndarray) (u : vec) (N0 : Qc) (lh : option Qc)
    (sw : option vec) (bs : option Z) (s s' : state) (ex : exn) :
  elbo x (Some u) N0 lh sw bs s = Raise ex s' ->
  ex = TypeError \/ ex = ValueError.
Proof.
  unfold elbo. unfold_monad.
  destruct lh as [l|]; [|rewrite accum_logh_zero];
    unfold get_self, np_inner, number; unfold_monad;
    destruct (eta (self s)) as [e|]; try (intros [= <- _]; auto);
    destruct (decide (length u = length e)); try (intros [= <- _]; auto);
    destruct (A (self s)); try done; intros [= <- _]; auto.
Qed.

Section Fit_exceptions.

Variable Mstep : Qc -> vec -> model -> exn + model.


End Fit_exceptions.

(** ** The claims on sample inputs *)

(** C1, where it breaks: on an array of 0 rows and 2 columns the
    one-pass E-step returns [(0, [0; 0])] and the E-step with batch size
    1 raises [UnboundLocalError], so the two do not return the same
    pair. *)
Theorem Estep_batched_differs_on_empty_array :
  let s := Sample.start Sample.fresh in
  Estep Sample.x_empty None None None s =
    Ok (0%Qc, [0%Qc; 0%Qc]) (add_call (CallEstep Sample.x_empty) s)
  /\ Estep Sample.x_empty None None (Some 1%Z) s =
       Raise UnboundLocalError (add_call (CallEstep Sample.x_empty) s)
  /\ Estep Sample.x_empty None None (Some 1%Z) s
       <> Estep Sample.x_empty None None None s.
Proof. repeat split. discriminate. Qed.

(** C2, where it breaks: with the weight 2, the E-step on the array
    [[1, 2]] leaves [[2, 4]] in it, and handed the precomputed
    statistics [[3, 4]] it leaves [[6, 8]] in them; so a second E-step
    on the same array with the same weight returns other statistics
    than the first. *)
Theorem Estep_weights_overwrite_input :
  let s := Sample.start Sample.fresh in
  let w := Some [z2q 2] in
  let s' := with_rows Sample.x1 [[z2q 2; z2q 4]]
              (add_call (CallEstep Sample.x1) s) in
  view_rows (heap s) Sample.x1 = [[z2q 1; z2q 2]]
  /\ view_rows (heap (state_of (Estep Sample.x1 None w None s))) Sample.x1
       = [[z2q 2; z2q 4]]
  /\ view_rows (heap s) Sample.u1 = [[z2q 3; z2q 4]]
  /\ view_rows (heap (state_of (Estep Sample.x1 (Some Sample.u1) w None s)))
               Sample.u1
       = [[z2q 6; z2q 8]]
  /\ Estep Sample.x1 None w None s = Ok (z2q 2, [z2q 2; z2q 4]) s'
  /\ exists s'', Estep Sample.x1 None w None s'
                   = Ok (z2q 2, [z2q 4; z2q 8]) s''.
Proof. repeat split. eexists. reflexivity. Qed.

Lemma Estep_sufficient_statistics_witness :
  Estep Sample.x3 None None (Some 2%Z) (Sample.start Sample.fresh) =
    Ok (z2q 3, [z2q 9; z2q 12])
       (add_call (CallEstep Sample.x3) (Sample.start Sample.fresh))
  /\ Estep Sample.x3 None (Some [z2q 2; z2q 3; z2q 1]) (Some 2%Z)
           (Sample.start Sample.fresh) =
       Ok (z2q 6, [z2q 16; z2q 22])
          (with_rows Sample.x3
             [[z2q 2; z2q 4]; [z2q 9; z2q 12]; [z2q 5; z2q 6]]
             (add_call (CallEstep Sample.x3) (Sample.start Sample.fresh))).
Proof.
  assert (Hin : in_bounds (heap (Sample.start Sample.fresh)) Sample.x3).
  { unfold in_bounds. vm_compute. lia. }
  assert (Hb : batch_fits (Some 2%Z) Sample.x3).
  { unfold batch_fits. simpl. lia. }
  destruct (Estep_sufficient_statistics Sample.x3 (Some 2%Z)
              (Sample.start Sample.fresh) Hin Hb) as [H1 H2].
  split; [exact H1|].
  exact (H2 [z2q 2; z2q 3; z2q 1] eq_refl).
Defined.

Lemma Estep_empty_input_witness :
  Estep Sample.x_empty None None None (Sample.start Sample.fresh) =
    Ok (0%Qc, [0%Qc; 0%Qc])
       (add_call (CallEstep Sample.x_empty) (Sample.start Sample.fresh))
  /\ Estep Sample.x_empty None (Some [z2q 1]) (Some 4%Z)
           (Sample.start Sample.fresh) =
       Raise UnboundLocalError
         (add_call (CallEstep Sample.x_empty) (Sample.start Sample.fresh)).
Proof.
  apply (Estep_empty_input Sample.x_empty (Some [z2q 1]) 4
           (Sample.start Sample.fresh)); [reflexivity|lia].
Defined.

Lemma fit_one_iteration_witness :
  let s := Sample.start Sample.fresh in
  let N := z2q 3 in
  let u := [z2q 9; z2q 12] in
  let s2 := set_self (Model (Some u) (Some N))
              (add_call (CallMstep N u) (add_call (CallEstep Sample.x3) s)) in
  let E := (0 + dot u u - N * N)%Qc in
  let Ev := (0 + dot [z2q 1; z2q 2] u - z2q 1 * N)%Qc in
  fit Sample.toy_Mstep Sample.x3 None None None None s
    = Ok [Finite E; true_div E N] s2
  /\ fit Sample.toy_Mstep Sample.x3 None (Some Sample.x1) None None s
    = Ok [Finite E; true_div E N; Finite Ev; true_div Ev (z2q 1)]
         (add_call (CallEstep Sample.x1) s2)
  /\ calls (add_call (CallEstep Sample.x1) s2)
     = [CallEstep Sample.x3; CallMstep N u; CallEstep Sample.x1].
Proof.
  intros s N u s2 E Ev.
  destruct (fit_one_iteration Sample.toy_Mstep Sample.x3 None None None s
              N u (add_call (CallEstep Sample.x3) s)
              (Model (Some u) (Some N)) u N
              eq_refl eq_refl eq_refl eq_refl eq_refl) as (H1 & _ & H3).
  split; [exact H1|].
  exact (H3 Sample.x1 (z2q 1) [z2q 1; z2q 2]
            (add_call (CallEstep Sample.x1) s2) eq_refl eq_refl).
Defined.

Lemma fit_validation_keeps_parameters_witness :
  self (state_of (fit Sample.toy_Mstep Sample.x3 None (Some Sample.x1)
                      (Some [z2q 2]) None (Sample.start Sample.fresh)))
  = Model (Some [z2q 9; z2q 12]) (Some (z2q 3)).
Proof.
  exact (proj1 (fit_validation_keeps_parameters Sample.toy_Mstep
                  Sample.x3 Sample.x1 None (Some [z2q 2]) None
                  (Sample.start Sample.fresh) (z2q 3) [z2q 9; z2q 12]
                  (add_call (CallEstep Sample.x3) (Sample.start Sample.fresh))
                  (Model (Some [z2q 9; z2q 12]) (Some (z2q 3)))
                  eq_refl eq_refl)).
Defined.

Lemma elbo_formula_witness :
  let s := Sample.start Sample.trained in
  elbo Sample.x3 None 1%Qc None None (Some 2%Z) s
    = Ok (0 + dot [z2q 9; z2q 12] [z2q 1; z2q 1] - z2q 3 * z2q 2)%Qc s
  /\ elbo Sample.x3 (Some [z2q 9; z2q 12]) (z2q 3) (Some (z2q 5)) None
          (Some 2%Z) s
    = Ok (z2q 5 + dot [z2q 9; z2q 12] [z2q 1; z2q 1] - z2q 3 * z2q 2)%Qc s.
Proof.
  intros s.
  destruct (elbo_formula Sample.x3 None (Some 2%Z) 1%Qc s
              [z2q 1; z2q 1] (z2q 2) (z2q 3) [z2q 9; z2q 12] s
              eq_refl eq_refl eq_refl eq_refl) as ((L & HL & H1) & H2 & _).
  split.
  - replace (0%Qc) with L; [exact H1|].
    rewrite accum_logh_zero in HL. now inversion HL.
  - exact (H2 [z2q 9; z2q 12] (z2q 3) (z2q 5) eq_refl).
Defined.

Lemma eval_llk_dispatch_witness :
  let s := Sample.start Sample.trained in
  eval_llk Sample.toy_eval_llk_std Sample.x3 None "nat" s
    = Ok [z2q 1; z2q 5; z2q 9] s
  /\ eval_llk Sample.toy_eval_llk_std Sample.x3 None "std" s = Ok [] s.
Proof.
  intros s.
  destruct (eval_llk_dispatch Sample.toy_eval_llk_std Sample.x3 None "std" s
              [z2q 1; z2q 1] (z2q 2) eq_refl eq_refl eq_refl) as [H1 H2].
  split; [exact H1|].
  apply H2. discriminate.
Defined.

Lemma eval_plda_saves_normalized_scores_witness :
  EvalPLDA.eval_plda nat (list string) unit unit id id (fun _ => tt)
    Sample.toy_TDR_read (fun _ _ _ => 5) (fun _ _ => tt)
    (fun _ a b _ ids => a + b + length ids) (fun _ a b => a * b)
    (fun _ S S_ct S_ec => S + S_ct + S_ec)
    "xvec" (Some "ndx") "enroll" None None "coh_xvec" "coh_list" 100 0
    "plda.h5" "scores" "splda" "vavg-lnorm"
  = inr [("scores"%string,
          EvalPLDA.MkTrialScores nat ["spk1"; "spk2"]%string
            ["seg1"; "seg2"]%string 29)]
  /\ EvalPLDA.np_unique_inverse ["spk2"; "spk1"; "spk2"]%string
     = (["spk1"; "spk2"]%string, [1; 0; 1]).
Proof.
  split; [|reflexivity].
  refine (proj1 (eval_plda_saves_normalized_scores nat (list string) unit unit
                   id id (fun _ => tt) Sample.toy_TDR_read (fun _ _ _ => 5)
                   (fun _ _ => tt) (fun _ a b _ ids => a + b + length ids)
                   (fun _ a b => a * b) (fun _ S S_ct S_ec => S + S_ct + S_ec)
                   "xvec" (Some "ndx") "enroll" None None "coh_xvec" "coh_list"
                   100 0 "plda.h5" "scores" "splda" "vavg-lnorm"
                   3 2 ["spk2"; "spk1"; "spk2"]%string ["seg1"; "seg2"]%string
                   eq_refl _)).
  vm_compute. lia.
Defined.

(** * Further properties of [ExpFamily] *)

(** ** Batch sizes and weights the loop does not expect *)

(** A batch size of 0 stops [xrange] with [ValueError], a negative one
    gives an empty range and the unbound [N]; in both cases nothing is
    accumulated and no array is written, whatever the array holds. *)
Theorem Estep_batch_size_not_positive
    (x : ndarray) (sw : option vec) (b : Z) (s : state) :
  (b <= 0)%Z ->
  Estep x None sw (Some b) s =
    Raise (if (b =? 0)%Z then ValueError else UnboundLocalError)
          (add_call (CallEstep x) s).
Proof.
  intros Hb. unfold Estep, log_call, accum_suff_stats,
    _accum_suff_stats_nbatches, xrange. unfold_monad.
  destruct (Z.eqb_spec b 0) as [->|Hne]; [done|].
  destruct (Z.ltb_spec 0 b); [lia|].
  replace (Z.to_nat (0 - Z.of_nat (shape0 x))) with 0 by lia. done.
Qed.

(** Weights that are neither one per row nor a single one cannot be
    broadcast: the one-pass E-step raises [ValueError] and has written
    nothing. *)
Theorem Estep_weights_of_wrong_length
    (x : ndarray) (u : option ndarray) (w : vec) (s : state) :
  length w <> shape0 (default x u) -> length w <> 1 ->
  Estep x u (Some w) None s = Raise ValueError (add_call (CallEstep x) s).
Proof.
  intros Hn H1. unfold Estep, log_call, accum_suff_stats,
    _accum_suff_stats_1batch, compute_suff_stats, imul_col, broadcast_col.
  unfold_monad.
  destruct u as [u0|]; simpl in *; rewrite decide_False by done;
    destruct w as [|w0 [|w1 w]]; simpl in *; done.
Qed.

(** Weights given for the first batch only: the batched E-step weights
    the first [b] rows of [x] in place, then raises [ValueError] on the
    second batch, and leaves [x] half weighted. *)
Theorem Estep_batched_fails_half_way
    (x : ndarray) (w : vec) (b : nat) (s : state) :
  in_bounds (heap s) x -> 1 <= b -> b < shape0 x -> length w = b ->
  Estep x None (Some w) (Some (Z.of_nat b)) s =
    Raise ValueError
      (with_rows (slice_rows x 0 b)
         (zip_with scale w (view_rows (heap s) (slice_rows x 0 b)))
         (add_call (CallEstep x) s)).
Proof.
  intros Hin Hb Hn Hw.
  unfold Estep, log_call, accum_suff_stats, _accum_suff_stats_nbatches, xrange.
  unfold_monad.
  destruct (Z.eqb_spec (Z.of_nat b) 0); [lia|].
  destruct (Z.ltb_spec 0 (Z.of_nat b)); [|lia].
  rewrite Z.sub_0_r, Nat2Z.id.
  destruct (shape0 x) as [|[|m]] eqn:En; [lia..|].
  cbn [xrange_up]. rewrite <- En in *.
  destruct (Z.ltb_spec 0 (Z.of_nat (shape0 x))); [|lia].
  rewrite Z.add_0_l.
  destruct (Z.ltb_spec (Z.of_nat b) (Z.of_nat (shape0 x))); [|lia].
  cbn [for_each]. unfold_monad. unfold nbatches_body at 1.
  rewrite Z.add_0_l, <- Nat2Z.inj_min, !Nat2Z.id.
  change (Z.to_nat 0) with 0.
  replace (b `min` shape0 x) with b by lia.
  assert (Hw0 : slice_vec w 0 b = w).
  { unfold slice_vec. simpl. rewrite Nat.sub_0_r. apply take_ge. lia. }
  rewrite Hw0. unfold_monad.
  set (s0 := add_call (CallEstep x) s).
  assert (Hs0 : shape0 (slice_rows x 0 b) = b).
  { unfold slice_rows. simpl. lia. }
  rewrite (accum_1batch_spec (slice_rows x 0 b) (Some w) s0); cycle 1.
  { now apply in_bounds_slice. }
  { simpl. lia. }
  cbn [Z.eqb after_accum]. 
  change (heap s0) with (heap s).
  set (s1 := with_rows _ _ s0).
  unfold nbatches_body at 1.
  rewrite <- Nat2Z.inj_add, <- Nat2Z.inj_min, !Nat2Z.id.
  assert (Hw1 : slice_vec w b ((b + b) `min` shape0 x) = []).
  { unfold slice_vec. rewrite drop_ge by lia. apply take_nil. }
  rewrite Hw1. unfold_monad.
  unfold _accum_suff_stats_1batch, compute_suff_stats, imul_col, broadcast_col.
  unfold_monad. rewrite decide_False; [done|].
  unfold slice_rows. simpl. lia.
Qed.

Lemma zip_with_scale_replicate (c : Qc) (rs : list vec) :
  zip_with scale (replicate (length rs) c) rs = map (scale c) rs.
Proof. induction rs as [|r rs IH]; simpl; [done|]. now rewrite IH. Qed.

(** A single weight is broadcast to every row: each row of [x] is
    multiplied by it, while the sample count returned is the weight
    itself, not the weight times the number of rows. *)
Theorem Estep_single_weight_is_broadcast
    (x : ndarray) (w0 : Qc) (s : state) :
  in_bounds (heap s) x ->
  Estep x None (Some [w0]) None s =
    Ok (w0, np_sum_axis0 (shape1 x) (map (scale w0) (view_rows (heap s) x)))
       (with_rows x (map (scale w0) (view_rows (heap s) x))
          (add_call (CallEstep x) s)).
Proof.
  intros Hin.
  assert (Hb : broadcast_col (shape0 x) [w0] = Some (replicate (shape0 x) w0)).
  { unfold broadcast_col. destruct (decide (length [w0] = shape0 x)) as [E|]; [|done].
    simpl in E. now rewrite <- E. }
  unfold Estep, log_call, accum_suff_stats, _accum_suff_stats_1batch,
    compute_suff_stats, imul_col. unfold_monad. rewrite Hb.
  unfold sum_axis0, read, write. unfold_monad.
  set (s0 := add_call (CallEstep x) s).
  change (heap s0) with (heap s).
  assert (Hz : zip_with scale (replicate (shape0 x) w0) (view_rows (heap s) x)
               = map (scale w0) (view_rows (heap s) x)).
  { rewrite <- (length_view_rows (heap s) x Hin) at 1.
    apply zip_with_scale_replicate. }
  rewrite Hz.
  assert (Hv := view_rows_with_rows x (map (scale w0) (view_rows (heap s) x)) s0 Hin).
  unfold with_rows in *. change (heap s0) with (heap s) in Hv.
  rewrite Hv by now rewrite length_map, length_view_rows.
  simpl. now rewrite Qcplus_0_r.
Qed.

(** ** Sums, inner products and weights *)








Lemma z2q_S (n : nat) : z2q (Z.of_nat (S n)) = (1 + z2q (Z.of_nat n))%Qc.
Proof. rewrite Nat2Z.inj_succ, <- Z.add_1_l. apply z2q_add. Qed.





Lemma np_sum_ones (n : nat) : np_sum (replicate n 1%Qc) = z2q (Z.of_nat n).
Proof.
  induction n as [|n IH]; [done|].
  cbn [replicate np_sum foldr]. fold (np_sum (replicate n 1%Qc)).
  now rewrite IH, z2q_S.
Qed.

Lemma scale_one (r : vec) : scale 1%Qc r = r.
Proof.
  unfold scale. induction r as [|a r IH]; simpl; [done|].
  now rewrite IH, Qcmult_1_r.
Qed.

Lemma zip_with_scale_ones (rs : list vec) :
  zip_with scale (replicate (length rs) 1%Qc) rs = rs.
Proof. induction rs as [|r rs IH]; simpl; [done|]. now rewrite IH, scale_one. Qed.

(** Weights all equal to 1 change nothing: the E-step returns the
    statistics of the unweighted E-step, and the rows it writes back
    into [x] are the rows it read. *)
Theorem Estep_unit_weights
    (x : ndarray) (bs : option Z) (s : state) :
  in_bounds (heap s) x -> batch_fits bs x ->
  exists s',
    Estep x None (Some (replicate (shape0 x) 1%Qc)) bs s =
      Ok (z2q (Z.of_nat (shape0 x)),
          np_sum_axis0 (shape1 x) (view_rows (heap s) x)) s'
    /\ view_rows (heap s') x = view_rows (heap s) x.
Proof.
  intros Hin Hb.
  assert (Hz : zip_with scale (replicate (shape0 x) 1%Qc) (view_rows (heap s) x)
               = view_rows (heap s) x).
  { rewrite <- (length_view_rows (heap s) x Hin) at 1.
    apply zip_with_scale_ones. }
  exists (after_accum (Some (replicate (shape0 x) 1%Qc)) x
            (add_call (CallEstep x) s)).
  split.
  - rewrite Estep_spec; [|done|unfold weights_fit; apply length_replicate|done].
    simpl. now rewrite np_sum_ones, Hz.
  - simpl. rewrite Hz. apply view_rows_with_rows; [done|].
    now apply length_view_rows.
Qed.








(** [eval_llk_nat] only reads: it leaves the whole state as it found
    it, whether it returns or raises, and what it returns has one entry
    per row. *)
Theorem eval_llk_nat_reads_only
    (x : ndarray) (ux : option ndarray) (s : state) :
  state_of (eval_llk_nat x ux s) = s
  /\ forall v s', eval_llk_nat x ux s = Ok v s' ->
       in_bounds (heap s) (default x ux) ->
       length v = shape0 (default x ux).
Proof.
  unfold eval_llk_nat, compute_suff_stats, logh, get_self, np_inner_rows,
    number, read. unfold_monad.
  destruct ux as [u0|]; simpl;
    (destruct (eta (self s)) as [e|]; [|split; [done|intros; discriminate]]);
    match goal with |- context [decide ?P] => destruct (decide P) end;
    try (split; [done|intros; discriminate]);
    (destruct (A (self s)) as [a|]; [|split; [done|intros; discriminate]]);
    (split; [done|]); intros v s' [= <- _] Hin;
    now rewrite !length_map, length_view_rows.
Qed.

(** ** What the E-step, [elbo] and [fit] leave alone *)

(** Without sample weights the E-step writes to no array: whatever the
    batch size, with or without precomputed statistics, and whether it
    returns or raises, the store is the one it found. *)
Theorem Estep_unweighted_keeps_store
    (x : ndarray) (u : option ndarray) (bs : option Z) (s : state) :
  heap (state_of (Estep x u None bs s)) = heap s.
Proof.
  unfold Estep, log_call. unfold_monad.
  now rewrite unweighted_accum_keeps_state.
Qed.

(** The E-step never touches the parameters: [eta] and [A] are after it
    what they were before, weights or not, returning or raising. *)
Theorem Estep_keeps_parameters
    (x : ndarray) (u : option ndarray) (sw : option vec) (bs : option Z)
    (s : state) :
  self (state_of (Estep x u sw bs s)) = self s.
Proof. apply Estep_frame. Qed.

(** With [u_x] handed in, [elbo] only reads the parameters: the state is
    untouched whether it returns or raises, and it can raise nothing but
    [TypeError] (no [eta], no [A]) or [ValueError] ([eta] of another
    length than [u_x]). *)
Theorem elbo_precomputed_reads_only
    (x : ndarray) (u : vec) (N0 : Qc) (lh : option Qc)
    (sw : option vec) (bs : option Z) (s : state) :
  state_of (elbo x (Some u) N0 lh sw bs s) = s
  /\ forall ex s', elbo x (Some u) N0 lh sw bs s = Raise ex s' ->
       ex = TypeError \/ ex = ValueError.
Proof.
  split; [apply elbo_precomputed_keeps_state|].
  intros ex s'. apply elbo_precomputed_raises.
Qed.

Section Fit_failures.

Variable Mstep : Qc -> vec -> model -> exn + model.

(** When the E-step on [x] raises, [fit] raises the same exception in
    the same state: the M-step is not called and the parameters are
    untouched. *)
Theorem fit_stops_when_Estep_raises
    (x : ndarray) (sw : option vec) (xv : option ndarray) (swv : option vec)
    (bs : option Z) (s s1 : state) (ex : exn) :
  Estep x None sw bs s = Raise ex s1 ->
  fit Mstep x sw xv swv bs s = Raise ex s1
  /\ self s1 = self s
  /\ calls s1 = calls s ++ [CallEstep x].
Proof.
  intros HE. split; [|split].
  - unfold fit. unfold_monad. now rewrite HE.
  - pose proof (Estep_frame x None sw bs s) as [H _]. now rewrite HE in H.
  - pose proof (Estep_frame x None sw bs s) as [_ H]. now rewrite HE in H.
Qed.


End Fit_failures.

(** * The scripts *)

(** ** Workers per GPU *)



Section Init_data.

Import AdvFinetune.

Variables dataset sampler : Type.
Variable AD_filter_args : gmap string pyval -> gmap string pyval.
Variable AD : gmap string pyval -> dataset.
Variable SegSamplerFactory_create : dataset -> gmap string pyval -> sampler.

(** With [num_gpus = 0], [init_data] never returns a loader: the number
    of workers per GPU is computed before [num_gpus > 0] is tested, so a
    configuration that is otherwise in order stops on
    [ZeroDivisionError]. *)
Theorem init_data_fails_without_gpu
    (partition : string) (rank : Z) (kwargs : gmap string pyval) :
  (forall loader,
     (init_data dataset sampler AD_filter_args AD SegSamplerFactory_create
                partition rank 0 kwargs).1 <> inr loader)
  /\ forall r dl nw n,
       init_data_config AD_filter_args partition kwargs = inr r ->
       part_d r !! "data_loader" = Some (PyDict dl) ->
       dl !! "num_workers" = Some nw -> as_number nw = inr n ->
       (init_data dataset sampler AD_filter_args AD SegSamplerFactory_create
                  partition rank 0 kwargs).1 = inl ZeroDivisionError.
Proof.
  split.
  - intros loader. unfold init_data.
    destruct (init_data_config _ _ _) as [e|r]; [done|]. cbn [fst].
    unfold init_data_loader.
    destruct (item _ "data_loader") as [e|v]; [done|]. cbn.
    destruct (as_dict v) as [e|dl]; [done|]. cbn.
    destruct (item dl "num_workers") as [e|nw]; [done|]. cbn.
    destruct (as_number nw) as [e|n]; [done|]. cbn.
    unfold true_divide. now rewrite decide_True.
  - intros r dl nw n Hr Hdl Hnw Hn. unfold init_data. rewrite Hr. cbn [fst].
    unfold init_data_loader, item.
    rewrite lookup_insert_ne, Hdl by done. cbn. rewrite Hnw. cbn.
    rewrite Hn. cbn. unfold true_divide. now rewrite decide_True.
Qed.




End Init_data.

(** ** Hard prototype mining *)

(** Hard prototypes are set on the validation sampler only when they
    are set on the training sampler, and then with the same affinity
    matrix; when mining is off, or cannot be read, on the training
    sampler, nothing is computed and nothing is set, whatever the
    validation sampler says. *)
Theorem val_prototypes_follow_train
    (matrix : Type) (affinity : matrix) (train_hpm val_hpm : option bool) :
  let calls := AdvFinetune.init_hard_prototype_mining affinity train_hpm val_hpm in
  (train_hpm <> Some true -> calls = [])
  /\ (forall m, AdvFinetune.SetHardPrototypesVal m ∈ calls ->
        m = affinity /\ val_hpm = Some true /\
        AdvFinetune.SetHardPrototypesTrain m ∈ calls)
  /\ (calls <> [] -> exists rest,
        calls = AdvFinetune.ComputePrototypeAffinity :: rest /\
        AdvFinetune.ComputePrototypeAffinity ∉ rest).
Proof.
  intros calls. subst calls. unfold AdvFinetune.init_hard_prototype_mining.
  destruct train_hpm as [[|]|], val_hpm as [[|]|]; cbn; split_and!;
    try done; try (intros H; congruence);
    try (intros m Hm; rewrite ?elem_of_cons, ?elem_of_nil in Hm;
         repeat (destruct Hm as [Hm|Hm]; try discriminate Hm); try done;
         injection Hm as ->; rewrite !elem_of_cons; auto);
    intros _; eexists; (split; [reflexivity|]);
    rewrite ?not_elem_of_cons; split_and?; try discriminate;
    apply not_elem_of_nil.
Qed.

(** ** The PDDA scoring script *)

Section Eval_pdda.

Variables tensor scp_list trial_ndx transform reader vae : Type.
Variable shape0 : tensor -> nat.
Variable SCPList_load : string -> scp_list.
Variable TrialNdx_load : string -> trial_ndx.
Variable TrialNdx_parse_eval_set :
  option trial_ndx -> scp_list -> option scp_list -> string ->
  trial_ndx * scp_list.
Variable TrialNdx_split : Z -> Z -> Z -> Z -> trial_ndx.
Variable key : trial_ndx -> list string.
Variable model_set seg_set : trial_ndx -> list string.
Variable scp_filter : scp_list -> list string -> scp_list.
Variable file_path : scp_list -> list string.
Variable HypDataReader : string -> reader.
Variable read : reader -> list string -> tensor.
Variable TransformList_load : string -> transform.
Variable predict : transform -> tensor -> tensor.
Variable TVAEY_load TVAEYZ_load : string -> vae.
Variable build_qY : vae -> Z -> Z -> vae.
Variable build_qYqZ : vae -> Z -> Z -> Z -> vae.
Variable eval_llr_1vs1 : vae -> tensor -> tensor -> string -> Z -> tensor.


End Eval_pdda.

Lemma position_lt (k : string) (u : list string) :
  k ∈ u -> EvalPLDA.position k u < length u.
Proof.
  induction u as [|k' u IH]; intros Hk.
  - now apply elem_of_nil in Hk.
  - simpl. destruct (decide (k = k')) as [->|Hne]; [lia|].
    apply elem_of_cons in Hk as [->|Hk]; [done|]. apply IH in Hk. lia.
Qed.

Lemma position_NoDup (u : list string) (j : nat) (k : string) :
  NoDup u -> u !! j = Some k -> EvalPLDA.position k u = j.
Proof.
  intros Hnd. revert j. induction Hnd as [|k' u Hk' Hnd IH]; intros j Hj.
  - done.
  - simpl. destruct j as [|j]; simpl in Hj.
    + injection Hj as ->. now rewrite decide_True.
    + rewrite decide_False.
      * f_equal. now apply IH.
      * intros ->. apply Hk'. eapply list_elem_of_lookup_2, Hj.
Qed.

(** The groups [eval_plda] hands to [llr_Nvs1] are well formed: there is
    one group id per enrollment row, every id is the index of an
    identity that is saved, every saved identity has at least one row,
    and the identities are saved in sorted order. *)
Theorem enrollment_groups_well_formed (enroll : list string) :
  let uniq := (EvalPLDA.np_unique_inverse enroll).1 in
  let ids_e := (EvalPLDA.np_unique_inverse enroll).2 in
  length ids_e = length enroll
  /\ Forall (fun j => j < length uniq) ids_e
  /\ (forall j, j < length uniq -> j ∈ ids_e)
  /\ Sorted EvalPLDA.string_le uniq.
Proof.
  intros uniq ids_e. split_and!.
  - unfold ids_e, EvalPLDA.np_unique_inverse. cbn [snd]. apply length_fmap.
  - unfold ids_e, EvalPLDA.np_unique_inverse. cbn [snd].
    apply Forall_fmap, Forall_forall. intros k Hk. simpl.
    apply position_lt. now apply np_unique_elem_of.
  - intros j Hj. apply lookup_lt_is_Some in Hj as [k Hk].
    assert (Hin : k ∈ enroll).
    { apply np_unique_elem_of. eapply list_elem_of_lookup_2, Hk. }
    unfold ids_e, EvalPLDA.np_unique_inverse. cbn [snd].
    apply list_elem_of_fmap. exists k. split; [|done].
    symmetry. apply position_NoDup; [apply np_unique_NoDup|exact Hk].
  - apply np_unique_Sorted.
Qed.

Section Fit_again.

Variable Mstep : Qc -> vec -> model -> exn + model.

(** Without sample weights EM can be iterated: a call of [fit],
    returned or not, has written to no array, and the E-step on [x]
    gives after it the statistics it gave before. *)
Theorem fit_unweighted_repeatable
    (x : ndarray) (xv : option ndarray) (bs : option Z) (s : state) :
  in_bounds (heap s) x -> batch_fits bs x ->
  let s' := state_of (fit Mstep x None xv None bs s) in
  heap s' = heap s
  /\ exists N u s1 s2,
       Estep x None None bs s = Ok (N, u) s1
       /\ Estep x None None bs s' = Ok (N, u) s2.
Proof.
  intros Hin Hb s'.
  assert (Hh : heap s' = heap s).
  { unfold s', fit, call_Mstep. unfold_monad.
    assert (HE : forall y t, heap (state_of (Estep y None None bs t)) = heap t).
    { intros y t. unfold Estep, log_call. unfold_monad.
      now rewrite unweighted_accum_keeps_state. }
    pose proof (HE x s) as H1.
    destruct (Estep x None None bs s) as [[N u] s1|e1 s1]; simpl in H1; [|done].
    cbn [self add_call].
    destruct (Mstep N u (self s1)) as [e2|m]; [done|].
    set (s2 := set_self m _).
    pose proof (elbo_precomputed_keeps_state x u N None None None s2) as H3.
    destruct (elbo x (Some u) N None None None s2) as [v s3|e3 s3];
      simpl in H3; subst s3; [|done].
    destruct xv as [xv'|]; [|done].
    pose proof (HE xv' s2) as H4.
    destruct (Estep xv' None None bs s2) as [[Nv uv] s4|e4 s4]; simpl in H4;
      [|simpl; congruence].
    pose proof (elbo_precomputed_keeps_state xv' uv Nv None None None s4) as H5.
    destruct (elbo xv' (Some uv) Nv None None None s4) as [v' s5|e5 s5];
      simpl in H5; subst s5; simpl; congruence. }
  split; [exact Hh|]. do 4 eexists. split.
  - now rewrite Estep_spec.
  - rewrite Estep_spec; try done; [|unfold in_bounds; now rewrite Hh].
    now rewrite Hh.
Qed.

End Fit_again.

(** * The further properties on sample inputs *)

Lemma Estep_batch_size_irrelevant_witness :
  let s := Sample.start Sample.fresh in
  let w := Some [z2q 2; z2q 3; z2q 1] in
  Estep Sample.x3 None w (Some 1%Z) s = Estep Sample.x3 None w None s /\
  Estep Sample.x3 None w (Some 1%Z) s = Estep Sample.x3 None w (Some 2%Z) s.
Proof.
  apply Estep_batch_size_irrelevant;
    [unfold in_bounds; vm_compute; lia | reflexivity | simpl; lia | lia | lia].
Defined.

Lemma Estep_batch_size_not_positive_witness :
  Estep Sample.x3 None None (Some (-2)%Z) (Sample.start Sample.fresh) =
    Raise UnboundLocalError
      (add_call (CallEstep Sample.x3) (Sample.start Sample.fresh)).
Proof.
  apply (Estep_batch_size_not_positive Sample.x3 None (-2)
           (Sample.start Sample.fresh)). lia.
Defined.

Lemma Estep_weights_of_wrong_length_witness :
  Estep Sample.x3 None (Some [z2q 1; z2q 2]) None (Sample.start Sample.fresh) =
    Raise ValueError
      (add_call (CallEstep Sample.x3) (Sample.start Sample.fresh)).
Proof.
  apply (Estep_weights_of_wrong_length Sample.x3 None [z2q 1; z2q 2]);
    simpl; lia.
Defined.

Lemma Estep_batched_fails_half_way_witness :
  Estep Sample.x3 None (Some [z2q 2; z2q 3]) (Some 2%Z)
        (Sample.start Sample.fresh) =
    Raise ValueError
      (with_rows (slice_rows Sample.x3 0 2)
         [[z2q 2; z2q 4]; [z2q 9; z2q 12]]
         (add_call (CallEstep Sample.x3) (Sample.start Sample.fresh))).
Proof.
  apply (Estep_batched_fails_half_way Sample.x3 [z2q 2; z2q 3] 2
           (Sample.start Sample.fresh));
    [unfold in_bounds; vm_compute; lia | lia | simpl; lia | reflexivity].
Defined.

Lemma Estep_single_weight_is_broadcast_witness :
  Estep Sample.x3 None (Some [z2q 2]) None (Sample.start Sample.fresh) =
    Ok (z2q 2, [z2q 18; z2q 24])
       (with_rows Sample.x3
          [[z2q 2; z2q 4]; [z2q 6; z2q 8]; [z2q 10; z2q 12]]
          (add_call (CallEstep Sample.x3) (Sample.start Sample.fresh))).
Proof.
  apply (Estep_single_weight_is_broadcast Sample.x3 (z2q 2)
           (Sample.start Sample.fresh)).
  unfold in_bounds. vm_compute. lia.
Defined.

Lemma Estep_unit_weights_witness :
  exists s',
    Estep Sample.x3 None (Some [1%Qc; 1%Qc; 1%Qc]) (Some 2%Z)
          (Sample.start Sample.fresh) =
      Ok (z2q 3, [z2q 9; z2q 12]) s'
    /\ view_rows (heap s') Sample.x3
       = [[z2q 1; z2q 2]; [z2q 3; z2q 4]; [z2q 5; z2q 6]].
Proof.
  apply (Estep_unit_weights Sample.x3 (Some 2%Z) (Sample.start Sample.fresh));
    [unfold in_bounds; vm_compute; lia | split; simpl; lia].
Defined.





Lemma fit_stops_when_Estep_raises_witness :
  let s := Sample.start Sample.fresh in
  let s1 := add_call (CallEstep Sample.x_empty) s in
  fit Sample.toy_Mstep Sample.x_empty None None None (Some 1%Z) s
    = Raise UnboundLocalError s1
  /\ self s1 = self s
  /\ calls s1 = calls s ++ [CallEstep Sample.x_empty].
Proof.
  apply (fit_stops_when_Estep_raises Sample.toy_Mstep Sample.x_empty None None
           None (Some 1%Z) (Sample.start Sample.fresh)).
  reflexivity.
Defined.


Lemma fit_unweighted_repeatable_witness :
  let s := Sample.start Sample.fresh in
  let s' := state_of (fit Sample.toy_Mstep Sample.x3 None (Some Sample.x1)
                          None (Some 2%Z) s) in
  heap s' = heap s
  /\ exists N u s1 s2,
       Estep Sample.x3 None None (Some 2%Z) s = Ok (N, u) s1
       /\ Estep Sample.x3 None None (Some 2%Z) s' = Ok (N, u) s2.
Proof.
  apply (fit_unweighted_repeatable Sample.toy_Mstep Sample.x3
           (Some Sample.x1) (Some 2%Z) (Sample.start Sample.fresh));
    [unfold in_bounds; vm_compute; lia | split; simpl; lia].
Defined.




